(** * Simple Archiver (obsidian-archive): path rewriting and rule evaluation

    A shallow embedding of [src/main.ts].  The plugin's methods are
    translated one by one; the operations it delegates to the JavaScript
    runtime ([startsWith], [substring], [parseInt], ...) and to the Obsidian
    host ([normalizePath], the vault, the prompt modal) are kept apart in
    the modules [Js] and [Obsidian].

    JavaScript strings are modelled by [string], i.e. sequences of code
    units below 256.  Asynchronous methods become terms of the type
    [Obsidian.Prog]: trees of host calls whose leaves say how the promise
    settles (or that it never does). *)

From Stdlib Require Import String Ascii List Bool Arith ZArith QArith Lia.
From Stdlib Require DecimalString DecimalNat.
Import ListNotations.

Local Close Scope Q_scope.
Local Open Scope nat_scope.
Local Open Scope list_scope.
Local Open Scope string_scope.

Set Warnings "-register-all".

(* ================================================================== *)
(** ** The JavaScript operations the plugin relies on *)

Module Js.

(** [s.startsWith(t)] *)
Definition startsWith (s t : string) : bool := String.prefix t s.

(** [s.substring(n)]: the code units from index [n] on; empty when [n]
    exceeds the length. *)
Fixpoint substring_from (n : nat) (s : string) : string :=
  match n, s with
  | O, _ => s
  | S _, EmptyString => EmptyString
  | S n', String _ s' => substring_from n' s'
  end.

(** [s.substring(0, n)] for [n >= 0]. *)
Fixpoint substring_to (n : nat) (s : string) : string :=
  match n, s with
  | O, _ => EmptyString
  | S _, EmptyString => EmptyString
  | S n', String c s' => String c (substring_to n' s')
  end.

(** [s.lastIndexOf("/")]; [None] stands for the result [-1]. *)
Fixpoint lastIndexOf_slash (s : string) : option nat :=
  match s with
  | EmptyString => None
  | String c s' =>
      match lastIndexOf_slash s' with
      | Some i => Some (S i)
      | None => if Ascii.eqb c "/" then Some O else None
      end
  end.

(** [s.substring(0, s.lastIndexOf("/"))]: a negative end index is clamped
    to 0. *)
Definition substring_to_lastIndexOf_slash (s : string) : string :=
  match lastIndexOf_slash s with
  | Some i => substring_to i s
  | None => EmptyString
  end.

(** White space and line terminators skipped by [parseInt] (those below
    256): TAB, LF, VT, FF, CR, SP and NBSP. *)
Definition is_white (c : ascii) : bool :=
  let n := nat_of_ascii c in
  (((9 <=? n) && (n <=? 13)) || (n =? 32) || (n =? 160))%nat.

Fixpoint trimStart (s : string) : string :=
  match s with
  | EmptyString => EmptyString
  | String c s' => if is_white c then trimStart s' else s
  end.

(** Value of a digit in the given radix (10 or 16). *)
Definition digit_value (radix : nat) (c : ascii) : option Z :=
  let n := nat_of_ascii c in
  if ((48 <=? n) && (n <=? 57))%nat then Some (Z.of_nat (n - 48))
  else if ((radix =? 16) && (97 <=? n) && (n <=? 102))%nat then Some (Z.of_nat (n - 87))
  else if ((radix =? 16) && (65 <=? n) && (n <=? 70))%nat then Some (Z.of_nat (n - 55))
  else None.

(** Longest prefix of digits, read left to right; [acc] is the value of the
    digits seen so far, [None] while no digit was seen. *)
Fixpoint parse_digits (radix : nat) (acc : option Z) (s : string) : option Z :=
  match s with
  | EmptyString => acc
  | String c s' =>
      match digit_value radix c with
      | Some d =>
          parse_digits radix
            (Some (Z.of_nat radix * match acc with Some a => a | None => 0 end + d)%Z) s'
      | None => acc
      end
  end.

(** [parseInt(s)] without a radix argument; [None] stands for [NaN].  The
    value is exact (a JavaScript number rounds integers above 2^53). *)
Definition parseInt (s : string) : option Z :=
  let s1 := trimStart s in
  let '(sign, s2) :=
    match s1 with
    | String c r =>
        if Ascii.eqb c "-" then ((-1)%Z, r)
        else if Ascii.eqb c "+" then (1%Z, r)
        else (1%Z, s1)
    | EmptyString => (1%Z, s1)
    end in
  let '(radix, s3) :=
    match s2 with
    | String c (String x r) =>
        if Ascii.eqb c "0" && (Ascii.eqb x "x" || Ascii.eqb x "X")
        then (16, r)
        else (10, s2)
    | _ => (10, s2)
    end in
  match parse_digits radix None s3 with
  | Some v => Some (sign * v)%Z
  | None => None
  end.

(** [s.includes(t)] *)
Fixpoint includes (s t : string) : bool :=
  String.prefix t s ||
  match s with
  | EmptyString => false
  | String _ s' => includes s' t
  end.

End Js.

(* ================================================================== *)
(** ** The Obsidian host *)

Module Obsidian.

Definition nbsp : ascii := "160"%char.

Definition is_sep (c : ascii) : bool := Ascii.eqb c "/" || Ascii.eqb c "\".

(** [path.replace(/([\\/])+/g, "/")]: every run of slashes and backslashes
    becomes one slash.  [in_run] tells that the previous character was a
    separator. *)
Fixpoint collapse_seps (in_run : bool) (s : string) : string :=
  match s with
  | EmptyString => EmptyString
  | String c s' =>
      if is_sep c
      then if in_run then collapse_seps true s'
           else String "/" (collapse_seps true s')
      else String c (collapse_seps false s')
  end.

(** [.replace(/^\/+/, "")] *)
Fixpoint strip_leading (s : string) : string :=
  match s with
  | String "/" s' => strip_leading s'
  | _ => s
  end.

(** [.replace(/\/+$/, "")] *)
Fixpoint strip_trailing (s : string) : string :=
  match s with
  | EmptyString => EmptyString
  | String c s' =>
      match strip_trailing s' with
      | EmptyString => if Ascii.eqb c "/" then EmptyString else String c EmptyString
      | t => String c t
      end
  end.

(** [.replace(/\u00A0|\u202F/g, " ")]; only U+00A0 is below 256. *)
Fixpoint replace_nbsp (s : string) : string :=
  match s with
  | EmptyString => EmptyString
  | String c s' => String (if Ascii.eqb c nbsp then " "%char else c) (replace_nbsp s')
  end.

(** Modelled from the spec: [normalizePath], which the plugin imports from
    "obsidian" and which is not part of the repository.  The specification
    asks for no redundant separators and no trailing separator; following
    the host's documentation, slashes and backslashes are unified and
    collapsed, leading and trailing slashes removed, the empty path becomes
    the root ["/"], and non-breaking spaces become spaces.  The final Unicode
    NFC step is the identity on code units below 256. *)
Definition normalizePath (p : string) : string :=
  let cleaned := strip_trailing (strip_leading (collapse_seps false p)) in
  replace_nbsp (if String.eqb cleaned "" then "/" else cleaned).

(** A path segment: non-empty, free of separators and of NBSP. *)
Definition seg_char (c : ascii) : bool := negb (is_sep c) && negb (Ascii.eqb c nbsp).

Fixpoint all_seg_chars (s : string) : bool :=
  match s with
  | EmptyString => true
  | String c s' => seg_char c && all_seg_chars s'
  end.

Definition is_segment (s : string) : bool :=
  negb (String.eqb s "") && all_seg_chars s.

(** A relative path in normal form: segments joined by single slashes.
    [at_start] tells that a segment has to begin here. *)
Fixpoint rel_path_from (at_start : bool) (s : string) : bool :=
  match s with
  | EmptyString => negb at_start
  | String c s' =>
      if Ascii.eqb c "/" then negb at_start && rel_path_from true s'
      else seg_char c && rel_path_from false s'
  end.

Definition is_rel_path (s : string) : bool := rel_path_from true s.

(** What [collapse_seps] establishes: no backslash and no two slashes in a
    row.  [after_slash] tells that the previous character was a slash. *)
Fixpoint collapsed (after_slash : bool) (s : string) : bool :=
  match s with
  | EmptyString => true
  | String c s' =>
      if Ascii.eqb c "/" then negb after_slash && collapsed true s'
      else negb (is_sep c) && collapsed false s'
  end.

(** *** Vault items *)

(** [TAbstractFile] with its two subclasses.  [parent] holds the path of the
    parent folder ([None] for a [null] parent); the plugin reads nothing
    else of the parent. *)
Inductive TAbstractFile : Type :=
| TFile (path name : string) (parent : option string)
| TFolder (path name : string) (parent : option string)
          (children : list TAbstractFile).

Definition path (f : TAbstractFile) : string :=
  match f with TFile p _ _ | TFolder p _ _ _ => p end.

Definition name (f : TAbstractFile) : string :=
  match f with TFile _ n _ | TFolder _ n _ _ => n end.

Definition parent (f : TAbstractFile) : option string :=
  match f with TFile _ _ d | TFolder _ _ d _ => d end.

Definition children (f : TAbstractFile) : list TAbstractFile :=
  match f with TFile _ _ _ => [] | TFolder _ _ _ cs => cs end.

(** [child instanceof TFile] *)
Definition instanceof_TFile (f : TAbstractFile) : bool :=
  match f with TFile _ _ _ => true | TFolder _ _ _ _ => false end.

(** The host keeps [path] equal to the parent's path, a slash and the name;
    items directly under the vault root (whose path is ["/"]) have their
    name as path. *)
Definition well_placed (f : TAbstractFile) : Prop :=
  is_segment (name f) = true /\
  exists d, parent f = Some d /\
    ((d = "/" /\ path f = name f) \/
     (is_rel_path d = true /\ path f = d ++ "/" ++ name f)).

(** *** Host calls *)

(** How a promise returned by the host settles. *)
Inductive Settled : Type :=
| Fulfilled
| Rejected (error : string).

(** What the user does with the prompt modal: the first button, the second
    button, or closing it without a decision. *)
Inductive Decision : Type :=
| ClickYes
| ClickNo
| Dismiss.

Inductive HostCall : Type :=
| getAbstractFileByPath (p : string)
| getFolderByPath (p : string)
| createFolder (p : string)
| renameFile (file : TAbstractFile) (newPath : string)
| trashFile (file : TAbstractFile)
| stat (p : string)
| Date_now
| console_error (msg error : string)
| console_log (msg : string)
| promptModal (title message yesButtonText noButtonText : string).

Definition Reply (c : HostCall) : Type :=
  match c with
  | getAbstractFileByPath _ => option TAbstractFile
  | getFolderByPath _ => option TAbstractFile
  | createFolder _ => Settled
  | renameFile _ _ => Settled
  | trashFile _ => Settled
  | stat _ => option Z            (* [mtime] in milliseconds, or [null] *)
  | Date_now => Z
  | console_error _ _ => unit
  | console_log _ => unit
  | promptModal _ _ _ _ => Decision
  end.

(** The calls that change the vault. *)
Definition mutates (c : HostCall) : bool :=
  match c with
  | createFolder _ | renameFile _ _ | trashFile _ => true
  | _ => false
  end.

(** *** Asynchronous programs *)

Inductive Prog (A : Type) : Type :=
| Ret (a : A)                                   (* the promise resolves *)
| Throw (error : string)                        (* the promise rejects *)
| Pending                                       (* the promise never settles *)
| Call (c : HostCall) (k : Reply c -> Prog A).

Arguments Ret {A} a.
Arguments Throw {A} error.
Arguments Pending {A}.
Arguments Call {A} c k.

Fixpoint bind {A B} (p : Prog A) (f : A -> Prog B) : Prog B :=
  match p with
  | Ret a => f a
  | Throw e => Throw e
  | Pending => Pending
  | Call c k => Call c (fun r => bind (k r) f)
  end.

(** [try { p } catch (error) { h error }] *)
Fixpoint try_catch {A} (p : Prog A) (h : string -> Prog A) : Prog A :=
  match p with
  | Ret a => Ret a
  | Throw e => h e
  | Pending => Pending
  | Call c k => Call c (fun r => try_catch (k r) h)
  end.

(** An async callback nobody awaits and that alone can resolve the
    enclosing promise: when it throws, the promise stays pending. *)
Fixpoint unawaited {A} (p : Prog A) : Prog A :=
  match p with
  | Ret a => Ret a
  | Throw _ => Pending
  | Pending => Pending
  | Call c k => Call c (fun r => unawaited (k r))
  end.

(** [await] of a host promise without a value. *)
Definition await (c : HostCall) (settled : Reply c -> Settled) : Prog unit :=
  Call c (fun r => match settled r with
                   | Fulfilled => Ret tt
                   | Rejected e => Throw e
                   end).

(** *** Running a program against a host *)

Record Host : Type := {
  World : Type;
  answer : forall c : HostCall, World -> Reply c * World
}.

Inductive Outcome (A : Type) : Type :=
| Resolved (a : A)
| Threw (error : string)
| NeverSettles.

Arguments Resolved {A} a.
Arguments Threw {A} error.
Arguments NeverSettles {A}.

Record Run (H : Host) (A : Type) : Type := {
  outcome : Outcome A;
  world : World H;
  calls : list HostCall          (* the host calls made, in order *)
}.

Arguments outcome {H A} r.
Arguments world {H A} r.
Arguments calls {H A} r.

(** The run that starts with the call [c] and goes on as [rest]. *)
Definition after_call {H A} (c : HostCall) (rest : Run H A) : Run H A :=
  {| outcome := outcome rest; world := world rest; calls := c :: calls rest |}.

Fixpoint run {A} (H : Host) (p : Prog A) (w : World H) : Run H A :=
  match p with
  | Ret a => {| outcome := Resolved a; world := w; calls := [] |}
  | Throw e => {| outcome := Threw e; world := w; calls := [] |}
  | Pending => {| outcome := NeverSettles; world := w; calls := [] |}
  | Call c k =>
      let '(r, w') := answer H c w in
      after_call c (run H (k r) w')
  end.

(** The run [r] followed, when it resolves, by the run of [f] on its
    value. *)
Definition and_then {H A B} (r : Run H A) (f : A -> Prog B) : Run H B :=
  match outcome r with
  | Resolved a =>
      let r' := run H (f a) (world r) in
      {| outcome := outcome r'; world := world r';
         calls := (calls r ++ calls r')%list |}
  | Threw e => {| outcome := Threw e; world := world r; calls := calls r |}
  | NeverSettles => {| outcome := NeverSettles; world := world r; calls := calls r |}
  end.

(** Every host call a program can make, whatever the host replies,
    satisfies [P]. *)
Inductive AllCalls {A} (P : HostCall -> Prop) : Prog A -> Prop :=
| AllCalls_Ret a : AllCalls P (Ret a)
| AllCalls_Throw e : AllCalls P (Throw e)
| AllCalls_Pending : AllCalls P Pending
| AllCalls_Call c k :
    P c -> (forall r, AllCalls P (k r)) -> AllCalls P (Call c k).

End Obsidian.

Notation "x <- p ;; q" := (Obsidian.bind p (fun x => q))
  (at level 61, p at next level, right associativity).
Notation "p ;;; q" := (Obsidian.bind p (fun _ => q))
  (at level 61, right associativity).

(* ================================================================== *)
(** ** The plugin: [src/main.ts] *)

Import Obsidian.

Inductive ConditionType : Type := fileAge | regexPattern.

Record AutoArchiveCondition : Type := {
  type : ConditionType;
  value : string   (* fileAge: number of days; regexPattern: regex source *)
}.

Inductive LogicOperator : Type := AND | OR.

Record AutoArchiveRule : Type := {
  id : string;
  enabled : bool;
  folderPath : string;
  conditions : list AutoArchiveCondition;
  logicOperator : LogicOperator
}.

Record SimpleArchiverSettings : Type := {
  archiveFolder : string;
  autoArchiveRules : list AutoArchiveRule;
  autoArchiveFrequency : Z   (* in minutes *)
}.

Record ArchiveResult : Type := {
  success : bool;
  message : string
}.

Definition DEFAULT_SETTINGS : SimpleArchiverSettings :=
  {| archiveFolder := "Archive";
     autoArchiveRules := [];
     autoArchiveFrequency := 60 |}.

(** The double quote, for the messages that quote a file name. *)
Definition dquote : string := String "034"%char EmptyString.

(** Template-literal rendering of a number. *)
Definition string_of_nat (n : nat) : string :=
  DecimalString.NilZero.string_of_uint (Nat.to_uint n).

(** Template-literal rendering of [file.parent?.path]: a [null] parent
    gives [undefined]. *)
Definition parent_path_text (file : TAbstractFile) : string :=
  match parent file with
  | Some d => d
  | None => "undefined"
  end.

Section SimpleArchiver.

(** The regular-expression engine of the runtime: [RegExp source] is [None]
    when [new RegExp(source)] throws, and otherwise the [test] method of the
    compiled expression. *)
Variable RegExp : string -> option (string -> bool).

(** [this.settings] *)
Variable settings : SimpleArchiverSettings.

Definition isFileArchived (file : TAbstractFile) : bool :=
  Js.startsWith (path file) (archiveFolder settings).

(** The folder a file is moved to, and the path it gets there
    ([destinationPath] and [destinationFilePath] of [moveFileToArchive]). *)
Definition archive_destinationPath (file : TAbstractFile) : string :=
  normalizePath (archiveFolder settings ++ "/" ++ parent_path_text file).

Definition archive_destinationFilePath (file : TAbstractFile) : string :=
  normalizePath (archive_destinationPath file ++ "/" ++ name file).

Definition moveFileToArchive (file : TAbstractFile) : Prog ArchiveResult :=
  let destinationPath := archive_destinationPath file in
  Call (getFolderByPath destinationPath) (fun destinationFolder =>
    match destinationFolder with
    | None => await (createFolder destinationPath) (fun r => r)
    | Some _ => Ret tt
    end ;;;
    let destinationFilePath := archive_destinationFilePath file in
    try_catch
      (await (renameFile file destinationFilePath) (fun r => r) ;;;
       Ret {| success := true;
              message := name file ++ " archived successfully" |})
      (fun error =>
       Ret {| success := false;
              message := "Unable to archive " ++ name file ++ ": " ++ error |})).

(** The path checked for a conflict ([destinationFilePath] of
    [archiveFile]). *)
Definition conflict_destinationFilePath (file : TAbstractFile) : string :=
  normalizePath (archiveFolder settings ++ "/" ++ path file).

Definition archiveFile (file : TAbstractFile) : Prog ArchiveResult :=
  if isFileArchived file
  then Ret {| success := false; message := "Item is already archived" |}
  else
    let destinationFilePath := conflict_destinationFilePath file in
    Call (getAbstractFileByPath destinationFilePath) (fun existingItem =>
      match existingItem with
      | Some existingItem =>
          (* Same item exists in archive, prompt to replace *)
          Call (promptModal
                  "Replace archived item?"
                  ("An item called " ++ dquote ++ name file ++ dquote ++
                   " already exists in the destination folder in the archive. Would you like to replace it?")
                  "Replace"
                  "Cancel")
            (fun decision =>
               match decision with
               | ClickYes =>
                   unawaited
                     (await (trashFile existingItem) (fun r => r) ;;;
                      moveFileToArchive file)
               | ClickNo =>
                   Ret {| success := false;
                          message := "Archive operation cancelled" |}
               | Dismiss => Pending
               end)
      | None =>
          (* If no existing item, proceed with archiving *)
          moveFileToArchive file
      end).

(** [originalPath] of [moveFileOutOfArchive] and [unarchiveFile]. *)
Definition originalPath (file : TAbstractFile) : string :=
  Js.substring_from (String.length (archiveFolder settings) + 1) (path file).

Definition moveFileOutOfArchive (file : TAbstractFile) : Prog ArchiveResult :=
  let originalPath := originalPath file in
  let originalParentPath := Js.substring_to_lastIndexOf_slash originalPath in
  (if String.eqb originalParentPath ""
   then Ret tt
   else
     Call (getFolderByPath originalParentPath) (fun originalFolder =>
       match originalFolder with
       | None => await (createFolder (normalizePath originalParentPath)) (fun r => r)
       | Some _ => Ret tt
       end)) ;;;
  try_catch
    (await (renameFile file (normalizePath originalPath)) (fun r => r) ;;;
     Ret {| success := true;
            message := name file ++ " unarchived successfully" |})
    (fun error =>
     Ret {| success := false;
            message := "Unable to unarchive " ++ name file ++ ": " ++ error |}).

Definition unarchiveFile (file : TAbstractFile) : Prog ArchiveResult :=
  if negb (isFileArchived file)
  then Ret {| success := false; message := "Item is not archived" |}
  else
    let originalPath := originalPath file in
    Call (getAbstractFileByPath originalPath) (fun existingItem =>
      match existingItem with
      | Some existingItem =>
          Call (promptModal
                  "Replace existing item?"
                  ("An item called " ++ dquote ++ name file ++ dquote ++
                   " already exists in the original location. Would you like to replace it?")
                  "Replace"
                  "Cancel")
            (fun decision =>
               match decision with
               | ClickYes =>
                   unawaited
                     (await (trashFile existingItem) (fun r => r) ;;;
                      moveFileOutOfArchive file)
               | ClickNo =>
                   Ret {| success := false;
                          message := "Unarchive operation cancelled" |}
               | Dismiss => Pending
               end)
      | None => moveFileOutOfArchive file
      end).

(** [new RegExp(source)] *)
Definition new_RegExp (source : string) : Prog (string -> bool) :=
  match RegExp source with
  | Some regex => Ret regex
  | None => Throw ("SyntaxError: Invalid regular expression: /" ++ source ++ "/")
  end.

Definition evaluateCondition
    (file : TAbstractFile) (condition : AutoArchiveCondition) : Prog bool :=
  match type condition with
  | fileAge =>
      match Js.parseInt (value condition) with
      | None => Ret false                                   (* isNaN(ageInDays) *)
      | Some ageInDays =>
          Call (stat (path file)) (fun stats =>
            match stats with
            | None => Ret false
            | Some mtime =>
                Call Date_now (fun now =>
                  let fileAgeMs := (now - mtime)%Z in
                  let fileAgeDays := (fileAgeMs # 86400000)%Q in
                  Ret (Qle_bool (inject_Z ageInDays) fileAgeDays))
            end)
      end
  | regexPattern =>
      try_catch
        (regex <- new_RegExp (value condition) ;;
         Ret (regex (name file)))
        (fun error =>
           Call (console_error
                   ("Invalid regex pattern in auto-archive rule: " ++ value condition)
                   error)
             (fun _ => Ret false))
  end.

(** The two loops of [evaluateAutoArchiveRule]. *)
Fixpoint or_loop (file : TAbstractFile) (cs : list AutoArchiveCondition) : Prog bool :=
  match cs with
  | [] => Ret false
  | condition :: rest =>
      b <- evaluateCondition file condition ;;
      if b then Ret true else or_loop file rest
  end.

Fixpoint and_loop (file : TAbstractFile) (cs : list AutoArchiveCondition) : Prog bool :=
  match cs with
  | [] => Ret true
  | condition :: rest =>
      b <- evaluateCondition file condition ;;
      if negb b then Ret false else and_loop file rest
  end.

Definition evaluateAutoArchiveRule
    (file : TAbstractFile) (rule : AutoArchiveRule) : Prog bool :=
  (* Skip if already archived *)
  if isFileArchived file then Ret false
  (* No conditions means no match *)
  else if (List.length (conditions rule) =? 0)%nat then Ret false
  else
    match logicOperator rule with
    | OR => or_loop file (conditions rule)
    | AND => and_loop file (conditions rule)
    end.

(** The loop over [folder.children] that fills [filesToArchive]. *)
Fixpoint gather_filesToArchive (rule : AutoArchiveRule)
    (children filesToArchive : list TAbstractFile) : Prog (list TAbstractFile) :=
  match children with
  | [] => Ret filesToArchive
  | child :: rest =>
      if instanceof_TFile child
      then
        b <- evaluateAutoArchiveRule child rule ;;
        gather_filesToArchive rule rest
          (if b then (filesToArchive ++ [child])%list else filesToArchive)
      else gather_filesToArchive rule rest filesToArchive
  end.

(** The loop that archives the gathered files and counts the successes. *)
Fixpoint archive_gathered (files : list TAbstractFile) (totalArchived : nat) : Prog nat :=
  match files with
  | [] => Ret totalArchived
  | file :: rest =>
      result <- archiveFile file ;;
      archive_gathered rest
        (if success result then S totalArchived else totalArchived)
  end.

(** The loop over the enabled rules. *)
Fixpoint sweep_rules (rules : list AutoArchiveRule) (totalArchived : nat) : Prog nat :=
  match rules with
  | [] => Ret totalArchived
  | rule :: rest =>
      Call (getFolderByPath (normalizePath (folderPath rule))) (fun folder =>
        match folder with
        | None => sweep_rules rest totalArchived                     (* continue *)
        | Some folder =>
            filesToArchive <- gather_filesToArchive rule (children folder) [] ;;
            total <- archive_gathered filesToArchive totalArchived ;;
            sweep_rules rest total
        end)
  end.

Definition processAutoArchiveRules : Prog unit :=
  let enabledRules := filter enabled (autoArchiveRules settings) in
  if (List.length enabledRules =? 0)%nat then Ret tt
  else
    totalArchived <- sweep_rules enabledRules 0 ;;
    if (0 <? totalArchived)%nat
    then Call (console_log
                 ("Auto-archive: " ++ string_of_nat totalArchived ++ " files archived"))
           (fun _ => Ret tt)
    else Ret tt.

End SimpleArchiver.

(** [validateArchiveFolderName] of the settings tab: the value must not
    match [/^\.|[:/\\]\.|:/]. *)
Fixpoint has_colon (s : string) : bool :=
  match s with
  | EmptyString => false
  | String c s' => Ascii.eqb c ":" || has_colon s'
  end.

Fixpoint has_sep_then_dot (s : string) : bool :=
  match s with
  | EmptyString => false
  | String c s' =>
      ((Ascii.eqb c ":" || is_sep c) &&
       match s' with String "." _ => true | _ => false end)
      || has_sep_then_dot s'
  end.

Definition validateArchiveFolderName (value : string) : bool :=
  negb (match value with String "." _ => true | _ => false end
        || has_sep_then_dot value
        || has_colon value).

(** [isArchived] as the specification words it: [p] equals the root or
    begins with the root followed by a slash. *)
Definition path_segment_prefix (r p : string) : bool :=
  String.eqb p r || String.prefix (r ++ "/") p.

(** The [renameFile] requests among a list of host calls, as pairs of the
    moved item's path and the requested new path. *)
Fixpoint rename_requests (cs : list HostCall) : list (string * string) :=
  match cs with
  | [] => []
  | renameFile file newPath :: rest => (path file, newPath) :: rename_requests rest
  | _ :: rest => rename_requests rest
  end.

(** Evaluation of every condition of a list, in order and without a
    short cut; the loops of [evaluateAutoArchiveRule] are compared with
    it. *)
Fixpoint evaluate_every_condition (RegExp : string -> option (string -> bool))
    (file : TAbstractFile) (cs : list AutoArchiveCondition) : Prog (list bool) :=
  match cs with
  | [] => Ret []
  | condition :: rest =>
      b <- evaluateCondition RegExp file condition ;;
      bs <- evaluate_every_condition RegExp file rest ;;
      Ret (b :: bs)
  end.



(** The prompt [archiveFile] opens when the destination is occupied. *)
Definition archive_conflict_prompt (file : TAbstractFile) : HostCall :=
  promptModal
    "Replace archived item?"
    ("An item called " ++ dquote ++ name file ++ dquote ++
     " already exists in the destination folder in the archive. Would you like to replace it?")
    "Replace"
    "Cancel".

(* ================================================================== *)
(** ** A small host for examples *)

Module SampleHost.

(** A vault as a flat list of items, the modification times known to
    [stat], a clock that stands still, a user who always takes the same
    decision, and the console. *)
Record Vault : Type := {
  items : list TAbstractFile;
  mtimes : list (string * Z);
  clock : Z;
  user : Decision;
  console : list string
}.

Definition lookup (p : string) (v : Vault) : option TAbstractFile :=
  find (fun f => String.eqb (path f) p) (items v).

Definition lookup_folder (p : string) (v : Vault) : option TAbstractFile :=
  find (fun f => String.eqb (path f) p && negb (instanceof_TFile f)) (items v).

Definition with_items (v : Vault) (l : list TAbstractFile) : Vault :=
  {| items := l; mtimes := mtimes v; clock := clock v; user := user v;
     console := console v |}.

Definition with_console (v : Vault) (l : list string) : Vault :=
  {| items := items v; mtimes := mtimes v; clock := clock v; user := user v;
     console := l |}.

Definition moved (f : TAbstractFile) (newPath : string) : TAbstractFile :=
  match f with
  | TFile _ n d => TFile newPath n d
  | TFolder _ n d cs => TFolder newPath n d cs
  end.

Definition answer (c : HostCall) : Vault -> Reply c * Vault :=
  match c as c0 return Vault -> Reply c0 * Vault with
  | getAbstractFileByPath p => fun v => (lookup p v, v)
  | getFolderByPath p => fun v => (lookup_folder p v, v)
  | createFolder p => fun v =>
      match lookup p v with
      | Some _ => (Rejected "Error: Folder already exists.", v)
      | None => (Fulfilled, with_items v (items v ++ [TFolder p p None []])%list)
      end
  | renameFile f newPath => fun v =>
      match lookup newPath v with
      | Some _ => (Rejected "Error: Destination file already exists!", v)
      | None =>
          (Fulfilled,
           with_items v
             (map (fun g => if String.eqb (path g) (path f) then moved g newPath else g)
                  (items v)))
      end
  | trashFile f => fun v =>
      (Fulfilled,
       with_items v (filter (fun g => negb (String.eqb (path g) (path f))) (items v)))
  | stat p => fun v =>
      (option_map snd (find (fun e => String.eqb (fst e) p) (mtimes v)), v)
  | Date_now => fun v => (clock v, v)
  | console_error msg _ => fun v => (tt, with_console v (console v ++ [msg])%list)
  | console_log msg => fun v => (tt, with_console v (console v ++ [msg])%list)
  | promptModal _ _ _ _ => fun v => (user v, v)
  end.

Definition host : Host := {| World := Vault; Obsidian.answer := answer |}.

(** A toy regular-expression engine: a source with an opening bracket is
    rejected, any other source matches the names that contain it. *)
Definition RegExp (source : string) : option (string -> bool) :=
  if Js.includes source "[" then None
  else Some (fun s => Js.includes s source).

Definition todo : TAbstractFile := TFile "Notes/todo.md" "todo.md" (Some "Notes").
Definition archived_todo : TAbstractFile :=
  TFile "Archive/Notes/todo.md" "todo.md" (Some "Archive/Notes").
Definition a_md : TAbstractFile := TFile "a.md" "a.md" (Some "/").
Definition archived_a_md : TAbstractFile := TFile "Archive/a.md" "a.md" (Some "Archive").

Definition day : Z := 86400000.

(** An inbox with an old note, a fresh note and a subfolder holding another
    old note. *)
Definition old_note : TAbstractFile := TFile "Inbox/old.md" "old.md" (Some "Inbox").
Definition new_note : TAbstractFile := TFile "Inbox/new.md" "new.md" (Some "Inbox").
Definition nested_note : TAbstractFile :=
  TFile "Inbox/Sub/deep.md" "deep.md" (Some "Inbox/Sub").
Definition sub : TAbstractFile := TFolder "Inbox/Sub" "Sub" (Some "Inbox") [nested_note].
Definition inbox : TAbstractFile :=
  TFolder "Inbox" "Inbox" (Some "/") [old_note; sub; new_note].

Definition inbox_vault : Vault :=
  {| items := [inbox; old_note; sub; new_note; nested_note];
     mtimes := [("Inbox/old.md", 0%Z); ("Inbox/new.md", (9 * day)%Z);
                ("Inbox/Sub/deep.md", 0%Z)];
     clock := (10 * day)%Z;
     user := ClickNo;
     console := [] |}.

Definition week_rule (folder : string) : AutoArchiveRule :=
  {| id := "rule-1"; enabled := true; folderPath := folder;
     conditions := [{| type := fileAge; value := "7" |}];
     logicOperator := AND |}.

Definition inbox_settings : SimpleArchiverSettings :=
  {| archiveFolder := "Archive";
     autoArchiveRules := [week_rule "Missing"; week_rule "Inbox"];
     autoArchiveFrequency := 60 |}.

(** [a.md] in the vault root and an older [a.md] already in the archive. *)
Definition vault (decision : Decision) : Vault :=
  {| items := [TFolder "Archive" "Archive" (Some "/") [archived_a_md];
               archived_a_md; a_md; todo];
     mtimes := [("a.md", 0%Z); ("Notes/todo.md", (3 * day)%Z)];
     clock := (10 * day)%Z;
     user := decision;
     console := [] |}.

End SampleHost.

(* ================================================================== *)
(** ** The rest of the plugin *)

Section Commands.

Variable settings : SimpleArchiverSettings.

(** [archiveAllFiles]: the loop is the one of the sweep; the value of the
    program is the text of the Notice it ends with. *)
Definition archiveAllFiles (files : list TAbstractFile) : Prog string :=
  archived <- archive_gathered settings files 0 ;;
  Ret (string_of_nat archived ++ " files archived").

(** The loop of [unarchiveAllFiles]. *)
Fixpoint unarchive_each (files : list TAbstractFile) (unarchived : nat) : Prog nat :=
  match files with
  | [] => Ret unarchived
  | file :: rest =>
      result <- unarchiveFile settings file ;;
      unarchive_each rest (if success result then S unarchived else unarchived)
  end.

Definition unarchiveAllFiles (files : list TAbstractFile) : Prog string :=
  unarchived <- unarchive_each files 0 ;;
  Ret (string_of_nat unarchived ++ " files unarchived").

(** [editorCheckCallback] of the command "Move to archive", given the file
    of the active view: whether the command is available and, unless the
    host is only checking, the work it starts, which ends with a Notice of
    the result's message. *)
Definition move_to_archive_check
    (checking : bool) (view_file : option TAbstractFile) : bool * option (Prog string) :=
  match view_file with
  | Some file =>
      if negb (isFileArchived settings file)
      then (true,
            if negb checking
            then Some (result <- archiveFile settings file ;; Ret (message result))
            else None)
      else (false, None)
  | None => (false, None)
  end.

(** [editorCheckCallback] of the command "Move out of archive". *)
Definition move_out_of_archive_check
    (checking : bool) (view_file : option TAbstractFile) : bool * option (Prog string) :=
  match view_file with
  | Some file =>
      if isFileArchived settings file
      then (true,
            if negb checking
            then Some (result <- unarchiveFile settings file ;; Ret (message result))
            else None)
      else (false, None)
  | None => (false, None)
  end.

(** An entry of a context menu.  The value of [onClick] is the Notice it
    shows, if any: the handlers for one item build an [Error] from a failed
    result without throwing it, so nothing is shown then. *)
Record MenuItem : Type := {
  title : string;
  icon : string;
  onClick : Prog (option string)
}.

(** The four handlers registered in [onload], in the order of their
    registration. *)
Definition file_menu_archive (menu : list MenuItem) (file : TAbstractFile) : list MenuItem :=
  if isFileArchived settings file then menu
  else
    (menu ++
     [{| title := "Move to archive";
         icon := "archive";
         onClick :=
           result <- archiveFile settings file ;;
           Ret (if success result then Some (message result) else None) |}])%list.

Definition files_menu_archive (menu : list MenuItem) (files : list TAbstractFile) : list MenuItem :=
  if existsb (fun file => isFileArchived settings file) files then menu
  else
    (menu ++
     [{| title := "Move all to archive";
         icon := "archive";
         onClick := notice <- archiveAllFiles files ;; Ret (Some notice) |}])%list.

Definition file_menu_unarchive (menu : list MenuItem) (file : TAbstractFile) : list MenuItem :=
  if negb (isFileArchived settings file) then menu
  else
    (menu ++
     [{| title := "Move out of archive";
         icon := "archive-restore";
         onClick :=
           result <- unarchiveFile settings file ;;
           Ret (if success result then Some (message result) else None) |}])%list.

Definition files_menu_unarchive (menu : list MenuItem) (files : list TAbstractFile) : list MenuItem :=
  if existsb (fun file => negb (isFileArchived settings file)) files then menu
  else
    (menu ++
     [{| title := "Move all out of archive";
         icon := "archive-restore";
         onClick := notice <- unarchiveAllFiles files ;; Ret (Some notice) |}])%list.

(** The events "file-menu" and "files-menu" as the workspace delivers them
    to the plugin's handlers. *)
Definition on_file_menu (menu : list MenuItem) (file : TAbstractFile) : list MenuItem :=
  file_menu_unarchive (file_menu_archive menu file) file.

Definition on_files_menu (menu : list MenuItem) (files : list TAbstractFile) : list MenuItem :=
  files_menu_unarchive (files_menu_archive menu files) files.

End Commands.

(** [setArchiveFolder] of the settings tab: the answer and the settings
    afterwards. *)
Definition setArchiveFolder (value : string) (settings : SimpleArchiverSettings)
    : bool * SimpleArchiverSettings :=
  if negb (validateArchiveFolderName value) then (false, settings)
  else
    (true,
     {| archiveFolder := value;
        autoArchiveRules := autoArchiveRules settings;
        autoArchiveFrequency := autoArchiveFrequency settings |}).

(** The text field of the archive folder after a series of inputs. *)
Definition type_archive_folders (values : list string) (settings : SimpleArchiverSettings)
    : SimpleArchiverSettings :=
  fold_left (fun s value => snd (setArchiveFolder value s)) values settings.

(** *** Stored settings *)

(** What [loadData] returns: every field of the settings may be missing,
    and a rule stored by an earlier version has no [logicOperator]. *)
Record StoredRule : Type := {
  stored_id : string;
  stored_enabled : bool;
  stored_folderPath : string;
  stored_conditions : list AutoArchiveCondition;
  stored_logicOperator : option LogicOperator
}.

Record StoredSettings : Type := {
  stored_archiveFolder : option string;
  stored_autoArchiveRules : option (list StoredRule);
  stored_autoArchiveFrequency : option Z
}.

(** [{ ...rule, logicOperator: rule.logicOperator || "AND" }] *)
Definition with_default_logicOperator (rule : StoredRule) : AutoArchiveRule :=
  {| id := stored_id rule;
     enabled := stored_enabled rule;
     folderPath := stored_folderPath rule;
     conditions := stored_conditions rule;
     logicOperator :=
       match stored_logicOperator rule with
       | Some op => op
       | None => AND
       end |}.

(** One field of [Object.assign({}, DEFAULT_SETTINGS, data)]. *)
Definition assigned {A B} (data : option B) (field : B -> option A) (default : A) : A :=
  match data with
  | Some d => match field d with Some v => v | None => default end
  | None => default
  end.

(** [loadSettings], as a function of what [loadData] returned ([None] for
    [null]). *)
Definition loadSettings (data : option StoredSettings) : SimpleArchiverSettings :=
  {| archiveFolder :=
       assigned data stored_archiveFolder (archiveFolder DEFAULT_SETTINGS);
     autoArchiveRules :=
       assigned data
         (fun d => option_map (map with_default_logicOperator) (stored_autoArchiveRules d))
         (autoArchiveRules DEFAULT_SETTINGS);
     autoArchiveFrequency :=
       assigned data stored_autoArchiveFrequency (autoArchiveFrequency DEFAULT_SETTINGS) |}.

(** What [saveSettings] hands to [saveData]. *)
Definition stored_rule (rule : AutoArchiveRule) : StoredRule :=
  {| stored_id := id rule;
     stored_enabled := enabled rule;
     stored_folderPath := folderPath rule;
     stored_conditions := conditions rule;
     stored_logicOperator := Some (logicOperator rule) |}.

Definition saveSettings (settings : SimpleArchiverSettings) : StoredSettings :=
  {| stored_archiveFolder := Some (archiveFolder settings);
     stored_autoArchiveRules := Some (map stored_rule (autoArchiveRules settings));
     stored_autoArchiveFrequency := Some (autoArchiveFrequency settings) |}.

(** *** The list of rules in the settings tab *)

(** The rule [addAutoArchiveRule] pushes; [uuid] is what
    [crypto.randomUUID()] returned. *)
Definition new_rule (uuid : string) : AutoArchiveRule :=
  {| id := uuid; enabled := true; folderPath := ""; conditions := [];
     logicOperator := AND |}.

Definition addAutoArchiveRule (uuid : string) (rules : list AutoArchiveRule)
    : list AutoArchiveRule :=
  (rules ++ [new_rule uuid])%list.

(** [rules.filter((r) => r.id !== rule.id)], the Delete button of a rule. *)
Definition delete_rule (rule : AutoArchiveRule) (rules : list AutoArchiveRule)
    : list AutoArchiveRule :=
  filter (fun r => negb (String.eqb (id r) (id rule))) rules.

(** The Cancel button of the rule modal: the rule is removed if it has no
    folder path. *)
Definition cancel_rule_modal (rule : AutoArchiveRule) (rules : list AutoArchiveRule)
    : list AutoArchiveRule :=
  if String.eqb (folderPath rule) "" then delete_rule rule rules else rules.

(** *** The timer of the sweep *)

Module Timers.

(** The intervals of the window: the handle [setInterval] will return next
    and the active intervals with their periods in milliseconds. *)
Record Window : Type := {
  next_handle : nat;
  intervals : list (nat * Z)
}.

Definition setInterval (ms : Z) (w : Window) : nat * Window :=
  (next_handle w,
   {| next_handle := S (next_handle w);
      intervals := (next_handle w, ms) :: intervals w |}).

Definition clearInterval (handle : nat) (w : Window) : Window :=
  {| next_handle := next_handle w;
     intervals := filter (fun e => negb (fst e =? handle)%nat) (intervals w) |}.

(** Every active handle was returned before. *)
Definition well_formed (w : Window) : Prop :=
  Forall (fun e => fst e < next_handle w) (intervals w).

End Timers.

(** The fields of the plugin object. *)
Record Plugin : Type := {
  plugin_settings : SimpleArchiverSettings;
  autoArchiveInterval : option nat
}.

Definition scheduleAutoArchive (this : Plugin) (w : Timers.Window) : Plugin * Timers.Window :=
  (* Clear existing interval if any *)
  let w1 :=
    match autoArchiveInterval this with
    | Some handle => Timers.clearInterval handle w
    | None => w
    end in
  (* Schedule new interval *)
  let intervalMs := (autoArchiveFrequency (plugin_settings this) * 60 * 1000)%Z in
  let '(handle, w2) := Timers.setInterval intervalMs w1 in
  ({| plugin_settings := plugin_settings this; autoArchiveInterval := Some handle |}, w2).

Definition onunload (this : Plugin) (w : Timers.Window) : Plugin * Timers.Window :=
  match autoArchiveInterval this with
  | Some handle =>
      ({| plugin_settings := plugin_settings this; autoArchiveInterval := None |},
       Timers.clearInterval handle w)
  | None => (this, w)
  end.

(** The frequency dropdown: the chosen number of minutes is stored and the
    sweep rescheduled. *)
Definition frequency_onChange (minutes : Z) (this : Plugin) (w : Timers.Window)
    : Plugin * Timers.Window :=
  scheduleAutoArchive
    {| plugin_settings :=
         {| archiveFolder := archiveFolder (plugin_settings this);
            autoArchiveRules := autoArchiveRules (plugin_settings this);
            autoArchiveFrequency := minutes |};
       autoArchiveInterval := autoArchiveInterval this |}
    w.

(** What can happen to the timer during the life of the plugin. *)
Inductive TimerEvent : Type :=
| Schedule
| ChangeFrequency (minutes : Z)
| Unload.

Definition timer_step (state : Plugin * Timers.Window) (e : TimerEvent)
    : Plugin * Timers.Window :=
  match e with
  | Schedule => scheduleAutoArchive (fst state) (snd state)
  | ChangeFrequency minutes => frequency_onChange minutes (fst state) (snd state)
  | Unload => onunload (fst state) (snd state)
  end.

(** The interval the plugin holds, as the window should list it. *)
Definition own_interval (this : Plugin) : list (nat * Z) :=
  match autoArchiveInterval this with
  | Some handle =>
      [(handle, (autoArchiveFrequency (plugin_settings this) * 60 * 1000)%Z)]
  | None => []
  end.

(** What holds of the plugin and the window that started as [w0] after any
    series of timer events: the window lists the plugin's interval before
    the intervals of [w0], and the plugin's handle is younger than [w0]. *)
Definition timer_invariant (w0 : Timers.Window) (state : Plugin * Timers.Window) : Prop :=
  Timers.intervals (snd state)
    = (own_interval (fst state) ++ Timers.intervals w0)%list /\
  Timers.next_handle w0 <= Timers.next_handle (snd state) /\
  (forall handle, autoArchiveInterval (fst state) = Some handle ->
     Timers.next_handle w0 <= handle < Timers.next_handle (snd state)).

(** *** Reading runs *)

(** The host calls the evaluation of a condition on [file] may make. *)
Definition condition_call (file : TAbstractFile) (c : HostCall) : Prop :=
  c = stat (path file) \/ c = Date_now \/ exists msg error, c = console_error msg error.

(** The prompt [unarchiveFile] opens when the original place is occupied. *)
Definition unarchive_conflict_prompt (file : TAbstractFile) : HostCall :=
  promptModal
    "Replace existing item?"
    ("An item called " ++ dquote ++ name file ++ dquote ++
     " already exists in the original location. Would you like to replace it?")
    "Replace"
    "Cancel".

(** What the sweep may ask the host to move: a file, not a folder, that
    does not count as archived, to its place in the archive. *)
Definition sweep_move (settings : SimpleArchiverSettings) (c : HostCall) : Prop :=
  forall item newPath,
    c = renameFile item newPath ->
    instanceof_TFile item = true /\
    isFileArchived settings item = false /\
    newPath = archive_destinationFilePath settings item.

(** The lookups of the sweep: one per rule, at its normalised folder
    path. *)
Definition folder_lookup (rule : AutoArchiveRule) : HostCall :=
  getFolderByPath (normalizePath (folderPath rule)).

(** The paths asked of [getAbstractFileByPath] among a list of host
    calls. *)
Fixpoint item_lookups (cs : list HostCall) : list string :=
  match cs with
  | [] => []
  | getAbstractFileByPath p :: rest => p :: item_lookups rest
  | _ :: rest => item_lookups rest
  end.

(** A host on which folders can always be created, items always trashed,
    and prompts are always answered. *)
Definition obliging (H : Host) : Prop :=
  (forall p w, fst (answer H (createFolder p) w) = Fulfilled) /\
  (forall f w, fst (answer H (trashFile f) w) = Fulfilled) /\
  (forall t m y n w, fst (answer H (promptModal t m y n) w) <> Dismiss).

(** The results [archiveFile] can resolve with. *)
Inductive ArchiveOutcome (settings : SimpleArchiverSettings) (file : TAbstractFile)
    : ArchiveResult -> Prop :=
| AlreadyArchived :
    isFileArchived settings file = true ->
    ArchiveOutcome settings file
      {| success := false; message := "Item is already archived" |}
| Cancelled :
    isFileArchived settings file = false ->
    ArchiveOutcome settings file
      {| success := false; message := "Archive operation cancelled" |}
| Archived :
    isFileArchived settings file = false ->
    ArchiveOutcome settings file
      {| success := true; message := name file ++ " archived successfully" |}
| MoveFailed error :
    isFileArchived settings file = false ->
    ArchiveOutcome settings file
      {| success := false;
         message := "Unable to archive " ++ name file ++ ": " ++ error |}.

(** *** Tactics for runs *)

(** Take the host's next reply apart. *)
Ltac next_reply H :=
  match goal with
  | |- context [answer H ?c ?w] =>
      let r := fresh "reply" in
      let w' := fresh "w" in
      destruct (answer H c w) as [r w']; cbn in r; destruct r;
      cbn [fst snd after_call outcome calls world run bind try_catch unawaited await]
  end.

(** Take the next reply of an obliging host apart. *)
Ltac obliging_reply H Hcreate Htrash Hprompt :=
  let E := fresh "E" in
  let r := fresh "reply" in
  let w' := fresh "w" in
  match goal with
  | |- context [answer H (createFolder ?p) ?w] =>
      pose proof (Hcreate p w) as E;
      destruct (answer H (createFolder p) w) as [r w']; cbn [fst] in E; subst r
  | |- context [answer H (trashFile ?f) ?w] =>
      pose proof (Htrash f w) as E;
      destruct (answer H (trashFile f) w) as [r w']; cbn [fst] in E; subst r
  | |- context [answer H (promptModal ?t ?m ?y ?n) ?w] =>
      pose proof (Hprompt t m y n w) as E;
      destruct (answer H (promptModal t m y n) w) as [r w']; cbn [fst] in E;
      cbn in r; destruct r; [ | | now elim E]
  | |- context [answer H ?c ?w] =>
      destruct (answer H c w) as [r w']; cbn in r; destruct r
  end;
  cbn [fst snd after_call outcome calls world run bind try_catch unawaited await].

(** *** Two more hosts for examples *)

Module OtherHosts.

(** The sample host, except that folders are created and items trashed
    without fail and a prompt left alone counts as cancelled. *)
Definition obliging_answer (c : HostCall) : SampleHost.Vault -> Reply c * SampleHost.Vault :=
  match c as c0 return SampleHost.Vault -> Reply c0 * SampleHost.Vault with
  | createFolder p => fun v => (Fulfilled, v)
  | promptModal _ _ _ _ => fun v =>
      (match SampleHost.user v with Dismiss => ClickNo | d => d end, v)
  | c0 => SampleHost.answer c0
  end.

Definition obliging_host : Host :=
  {| World := SampleHost.Vault; Obsidian.answer := obliging_answer |}.

(** The sample host, except that nothing can be trashed. *)
Definition keeping_answer (c : HostCall) : SampleHost.Vault -> Reply c * SampleHost.Vault :=
  match c as c0 return SampleHost.Vault -> Reply c0 * SampleHost.Vault with
  | trashFile _ => fun v => (Rejected "Error: EPERM", v)
  | c0 => SampleHost.answer c0
  end.

Definition keeping_host : Host :=
  {| World := SampleHost.Vault; Obsidian.answer := keeping_answer |}.

(** A vault where a file called [Archive] sits where the archive folder
    should be. *)
Definition blocked_vault : SampleHost.Vault :=
  SampleHost.with_items (SampleHost.vault ClickNo)
    [TFile "Archive" "Archive" (Some "/"); SampleHost.a_md; SampleHost.todo].

End OtherHosts.

(* ================================================================== *)
(** ** Strings and paths *)

Lemma append_assoc (a b c : string) : (a ++ b) ++ c = a ++ (b ++ c).
Proof. induction a as [|x a IH]; simpl; [reflexivity | now rewrite IH]. Qed.

Lemma prefix_append (r t : string) : String.prefix r (r ++ t) = true.
Proof.
  induction r as [|x r IH]; simpl.
  - now destruct t.
  - destruct (ascii_dec x x) as [_|ne]; [exact IH | now elim ne].
Qed.

Lemma prefix_split (r p : string) :
  String.prefix r p = true -> exists t, p = r ++ t.
Proof.
  revert p; induction r as [|x r IH]; intros p Hp.
  - now exists p.
  - destruct p as [|y p]; simpl in Hp; [discriminate|].
    destruct (ascii_dec x y) as [->|]; [|discriminate].
    destruct (IH _ Hp) as [t ->]. now exists t.
Qed.

Lemma substring_from_append (r t : string) :
  Js.substring_from (String.length r) (r ++ t) = t.
Proof. induction r as [|x r IH]; simpl; [now destruct t | exact IH]. Qed.

Lemma substring_from_root_slash (r p : string) :
  Js.substring_from (String.length r + 1) (r ++ "/" ++ p) = p.
Proof.
  replace (r ++ "/" ++ p) with ((r ++ "/") ++ p) by apply append_assoc.
  replace (String.length r + 1) with (String.length (r ++ "/")).
  - apply substring_from_append.
  - induction r as [|x r IH]; simpl; [reflexivity | now rewrite IH].
Qed.

Section NormalForm.

Lemma seg_char_not_slash c : seg_char c = true -> Ascii.eqb c "/" = false.
Proof.
  unfold seg_char, is_sep. destruct (Ascii.eqb c "/"); simpl; [discriminate | reflexivity].
Qed.

Lemma seg_char_not_sep c : seg_char c = true -> is_sep c = false.
Proof. unfold seg_char. destruct (is_sep c); simpl; [discriminate | reflexivity]. Qed.

Lemma seg_char_not_nbsp c : seg_char c = true -> Ascii.eqb c nbsp = false.
Proof.
  unfold seg_char. destruct (Ascii.eqb c nbsp); [|reflexivity].
  now rewrite andb_false_r.
Qed.

Lemma slash_is_sep c : Ascii.eqb c "/" = true -> is_sep c = true.
Proof. unfold is_sep. now intros ->. Qed.

(** Case analysis on the head of a path in normal form. *)
Lemma rel_path_from_cons b c s :
  rel_path_from b (String c s) = true ->
  (c = "/"%char /\ b = false /\ rel_path_from true s = true) \/
  (seg_char c = true /\ rel_path_from false s = true).
Proof.
  simpl. destruct (Ascii.eqb c "/") eqn:E.
  - apply Ascii.eqb_eq in E. intros H. apply andb_true_iff in H as [Hb Hs].
    left. destruct b; [discriminate | auto].
  - intros H. apply andb_true_iff in H. now right.
Qed.

Lemma rel_path_nonempty s : rel_path_from true s = true -> s <> "".
Proof. now destruct s. Qed.

Lemma collapse_seps_rel_path_app s : forall b t,
  rel_path_from b s = true ->
  collapse_seps b (s ++ t) = s ++ collapse_seps false t.
Proof.
  induction s as [|c s IH]; intros b t H.
  - destruct b; [discriminate | reflexivity].
  - apply rel_path_from_cons in H as [(-> & -> & H) | (Hc & H)]; simpl.
    + now rewrite (IH true t H).
    + rewrite (seg_char_not_sep _ Hc). now rewrite (IH false t H).
Qed.

Lemma append_empty_r (s : string) : s ++ "" = s.
Proof. induction s as [|c s IH]; simpl; [reflexivity | now rewrite IH]. Qed.

(** At the start of a relative path the run flag does not matter. *)
Lemma collapse_seps_is_rel_path_app s b t :
  rel_path_from true s = true ->
  collapse_seps b (s ++ t) = s ++ collapse_seps false t.
Proof.
  destruct s as [|c s]; [discriminate|]. intros H.
  apply rel_path_from_cons in H as [(_ & Hb & _) | (Hc & H)]; [discriminate|].
  simpl. rewrite (seg_char_not_sep _ Hc).
  now rewrite (collapse_seps_rel_path_app s false t H).
Qed.

Lemma collapse_seps_rel_path s b :
  rel_path_from true s = true -> collapse_seps b s = s.
Proof.
  intros H. rewrite <- (append_empty_r s) at 1.
  rewrite (collapse_seps_is_rel_path_app s b "" H). simpl. apply append_empty_r.
Qed.

Lemma strip_leading_rel_path_app s t :
  rel_path_from true s = true -> strip_leading (s ++ t) = s ++ t.
Proof.
  destruct s as [|c s]; [discriminate|]. intros H.
  apply rel_path_from_cons in H as [(_ & Hb & _) | (Hc & _)]; [discriminate|].
  apply seg_char_not_slash in Hc. simpl.
  destruct c as [[] [] [] [] [] [] [] []]; try reflexivity. discriminate.
Qed.

Lemma strip_trailing_rel_path s : forall b,
  rel_path_from b s = true -> strip_trailing s = s.
Proof.
  induction s as [|c s IH]; intros b H; [reflexivity|].
  apply rel_path_from_cons in H as [(-> & -> & H) | (Hc & H)]; simpl.
  - rewrite (IH _ H). destruct s; [discriminate | reflexivity].
  - rewrite (IH _ H). destruct s; [|reflexivity].
    now rewrite (seg_char_not_slash _ Hc).
Qed.

Lemma strip_trailing_slash s : strip_trailing (s ++ "/") = strip_trailing s.
Proof. induction s as [|c s IH]; simpl; [reflexivity | now rewrite IH]. Qed.

Lemma replace_nbsp_rel_path s : forall b,
  rel_path_from b s = true -> replace_nbsp s = s.
Proof.
  induction s as [|c s IH]; intros b H; [reflexivity|].
  apply rel_path_from_cons in H as [(-> & -> & H) | (Hc & H)]; simpl.
  - now rewrite (IH _ H).
  - rewrite (seg_char_not_nbsp _ Hc). now rewrite (IH _ H).
Qed.

(** A relative path in normal form is left alone by [normalizePath]. *)
Lemma normalizePath_rel_path s :
  is_rel_path s = true -> normalizePath s = s.
Proof.
  unfold is_rel_path, normalizePath. intros H.
  assert (E : strip_trailing (strip_leading (collapse_seps false s)) = s).
  { rewrite (collapse_seps_rel_path _ _ H).
    pose proof (strip_leading_rel_path_app s "" H) as L.
    rewrite append_empty_r in L. rewrite L.
    apply (strip_trailing_rel_path _ _ H). }
  cbv zeta. rewrite E.
  destruct (String.eqb_spec s "") as [->|_]; [discriminate|].
  apply (replace_nbsp_rel_path _ _ H).
Qed.

(** Joining with the root path: [r + "/" + "/"] normalises to [r]. *)
Lemma normalizePath_under_root r :
  is_rel_path r = true -> normalizePath (r ++ "/" ++ "/") = r.
Proof.
  unfold is_rel_path, normalizePath. intros H.
  assert (E : strip_trailing (strip_leading (collapse_seps false (r ++ "/" ++ "/"))) = r).
  { rewrite (collapse_seps_is_rel_path_app r false _ H). simpl collapse_seps.
    rewrite (strip_leading_rel_path_app r _ H).
    rewrite strip_trailing_slash. apply (strip_trailing_rel_path _ _ H). }
  cbv zeta. rewrite E.
  destruct (String.eqb_spec r "") as [->|_]; [discriminate|].
  apply (replace_nbsp_rel_path _ _ H).
Qed.

Lemma rel_path_from_app a : forall b c d,
  rel_path_from b a = true -> rel_path_from false c = d ->
  rel_path_from b (a ++ c) = d.
Proof.
  induction a as [|x a IH]; intros b c d H Hc.
  - destruct b; [discriminate | exact Hc].
  - apply rel_path_from_cons in H as [(-> & -> & H) | (Hx & H)]; simpl.
    + now apply IH.
    + rewrite (seg_char_not_slash _ Hx), Hx. simpl. now apply IH.
Qed.

(** Two relative paths joined by a slash form a relative path. *)
Lemma is_rel_path_join a c :
  is_rel_path a = true -> is_rel_path c = true -> is_rel_path (a ++ "/" ++ c) = true.
Proof.
  unfold is_rel_path. intros Ha Hc. now apply (rel_path_from_app a true).
Qed.

Lemma all_seg_chars_rel_path s :
  all_seg_chars s = true -> rel_path_from false s = true.
Proof.
  induction s as [|c s IH]; simpl; [reflexivity|]. intros H.
  apply andb_true_iff in H as [Hc Hs].
  now rewrite (seg_char_not_slash _ Hc), Hc, (IH Hs).
Qed.

Lemma is_segment_rel_path n : is_segment n = true -> is_rel_path n = true.
Proof.
  unfold is_segment, is_rel_path. intros H. apply andb_true_iff in H as [Hne Hs].
  destruct n as [|c n]; [discriminate|]. simpl in *.
  apply andb_true_iff in Hs as [Hc Hs].
  now rewrite (seg_char_not_slash _ Hc), Hc, (all_seg_chars_rel_path _ Hs).
Qed.

(** The path of a well-placed item is a relative path in normal form. *)
Lemma well_placed_rel_path f : well_placed f -> is_rel_path (path f) = true.
Proof.
  intros (Hn & d & _ & [(_ & ->) | (Hd & ->)]).
  - now apply is_segment_rel_path.
  - apply is_rel_path_join; [exact Hd | now apply is_segment_rel_path].
Qed.

(** *** The results of [normalizePath] *)

Lemma collapse_seps_collapsed s : forall b, collapsed b (collapse_seps b s) = true.
Proof.
  induction s as [|c s IH]; intros b; [reflexivity|]. cbn [collapse_seps].
  destruct (is_sep c) eqn:Esep.
  - destruct b; [apply IH|]. cbn. apply IH.
  - cbn [collapsed]. destruct (Ascii.eqb c "/") eqn:E.
    + apply slash_is_sep in E. congruence.
    + rewrite Esep. apply IH.
Qed.

(** The flag only matters for a leading slash. *)
Lemma collapsed_true_false s : collapsed true s = true -> collapsed false s = true.
Proof.
  destruct s as [|c s]; [reflexivity|]. cbn.
  destruct (Ascii.eqb c "/"); [discriminate | auto].
Qed.

Lemma strip_leading_collapsed s :
  collapsed false s = true -> collapsed true (strip_leading s) = true.
Proof.
  destruct s as [|c s]; [reflexivity|]. intros H.
  destruct (Ascii.eqb c "/") eqn:E.
  - apply Ascii.eqb_eq in E. subst c. cbn in H |- *.
    destruct s as [|c s]; [reflexivity|]. cbn in H.
    destruct (Ascii.eqb c "/") eqn:E; [discriminate|].
    replace (strip_leading (String c s)) with (String c s).
    + cbn. now rewrite E.
    + cbn. destruct c as [[] [] [] [] [] [] [] []]; try reflexivity. discriminate.
  - replace (strip_leading (String c s)) with (String c s).
    + cbn in H |- *. now rewrite E in *.
    + cbn. destruct c as [[] [] [] [] [] [] [] []]; try reflexivity. discriminate.
Qed.

Lemma strip_trailing_collapsed s : forall b,
  collapsed b s = true -> collapsed b (strip_trailing s) = true.
Proof.
  induction s as [|c s IH]; intros b H; [reflexivity|]. cbn in H |- *.
  destruct (Ascii.eqb c "/") eqn:E.
  - apply andb_true_iff in H as [Hb Hs]. specialize (IH _ Hs).
    destruct (strip_trailing s) as [|c' t]; [reflexivity|].
    cbn [collapsed]. now rewrite E, Hb.
  - apply andb_true_iff in H as [Hc Hs]. specialize (IH _ Hs).
    destruct (strip_trailing s) as [|c' t]; cbn [collapsed]; rewrite E, Hc; [reflexivity|].
    exact IH.
Qed.

Lemma strip_trailing_cons c s :
  strip_trailing (String c s) =
  match strip_trailing s with
  | EmptyString => if Ascii.eqb c "/" then EmptyString else String c EmptyString
  | t => String c t
  end.
Proof. reflexivity. Qed.

Lemma strip_trailing_idempotent s :
  strip_trailing (strip_trailing s) = strip_trailing s.
Proof.
  induction s as [|c s IH]; [reflexivity|].
  rewrite (strip_trailing_cons c s).
  destruct (strip_trailing s) as [|c' t] eqn:Et.
  - destruct (Ascii.eqb c "/") eqn:E; [reflexivity|]. cbn. now rewrite E.
  - rewrite (strip_trailing_cons c (String c' t)). now rewrite IH.
Qed.

Lemma replaced_seg_char c :
  is_sep c = false ->
  seg_char (if Ascii.eqb c nbsp then " "%char else c) = true.
Proof.
  intros Hsep. destruct (Ascii.eqb c nbsp) eqn:E; [reflexivity|].
  unfold seg_char. now rewrite Hsep, E.
Qed.

Lemma stripped_rel_path t : forall b,
  collapsed b t = true ->
  strip_trailing t = t ->
  (b = true -> t <> "") ->
  rel_path_from b (replace_nbsp t) = true.
Proof.
  induction t as [|c t IH]; intros b Hc Hs Hne.
  - destruct b; [now elim Hne | reflexivity].
  - cbn in Hc, Hs. cbn [replace_nbsp rel_path_from].
    assert (Ht : strip_trailing t = t /\ (Ascii.eqb c "/" = true -> t <> "")).
    { destruct (strip_trailing t) as [|c' t'] eqn:Et.
      - destruct (Ascii.eqb c "/"); [discriminate|].
        injection Hs as <-. now split.
      - injection Hs as <-. split; [reflexivity | discriminate]. }
    destruct Ht as [Ht Hslash].
    destruct (Ascii.eqb c "/") eqn:E.
    + apply Ascii.eqb_eq in E. subst c. cbn.
      apply andb_true_iff in Hc as [-> Hc]. cbn.
      apply IH; [exact Hc | exact Ht | intros _; now apply Hslash].
    + apply andb_true_iff in Hc as [Hsep Hc]. apply negb_true_iff in Hsep.
      pose proof (replaced_seg_char c Hsep) as Hseg.
      rewrite (seg_char_not_slash _ Hseg), Hseg. cbn.
      apply IH; [exact Hc | exact Ht | discriminate].
Qed.

(** Every result of [normalizePath] is the root or a relative path in
    normal form. *)
Lemma normalizePath_normal_form s :
  normalizePath s = "/" \/ is_rel_path (normalizePath s) = true.
Proof.
  unfold normalizePath. cbv zeta.
  set (cleaned := strip_trailing (strip_leading (collapse_seps false s))).
  destruct (String.eqb_spec cleaned "") as [_|Hne]; [now left|]. right.
  apply stripped_rel_path.
  - apply strip_trailing_collapsed, strip_leading_collapsed, collapse_seps_collapsed.
  - apply strip_trailing_idempotent.
  - now intros _.
Qed.

(** The relative paths in normal form are the fixed points of
    [normalizePath] other than the root. *)
Lemma is_rel_path_iff s :
  is_rel_path s = true <-> normalizePath s = s /\ s <> "/".
Proof.
  split.
  - intros H. split; [now apply normalizePath_rel_path|]. intros ->. discriminate.
  - intros [Hfix Hroot]. destruct (normalizePath_normal_form s) as [E|E].
    + rewrite Hfix in E. contradiction.
    + now rewrite Hfix in E.
Qed.

Lemma normalizePath_idempotent s :
  normalizePath (normalizePath s) = normalizePath s.
Proof.
  destruct (normalizePath_normal_form s) as [->|E]; [reflexivity|].
  now apply normalizePath_rel_path.
Qed.

End NormalForm.

(* ================================================================== *)
(** ** Programs and their runs *)

Section Programs.

Context {A : Type}.

Lemma AllCalls_bind {B} P (p : Prog A) (f : A -> Prog B) :
  AllCalls P p -> (forall a, AllCalls P (f a)) -> AllCalls P (bind p f).
Proof.
  intros Hp Hf. induction Hp; simpl; auto using @AllCalls.
Qed.

Lemma AllCalls_try_catch P (p : Prog A) h :
  AllCalls P p -> (forall e, AllCalls P (h e)) -> AllCalls P (try_catch p h).
Proof.
  intros Hp Hh. induction Hp; simpl; auto using @AllCalls.
Qed.

Lemma AllCalls_unawaited P (p : Prog A) :
  AllCalls P p -> AllCalls P (unawaited p).
Proof.
  intros Hp. induction Hp; simpl; auto using @AllCalls.
Qed.

Lemma AllCalls_run P (p : Prog A) H :
  AllCalls P p -> forall w, Forall P (calls (run H p w)).
Proof.
  intros Hp. induction Hp as [| | |c k Hc Hk IH]; intros w; simpl; try constructor.
  destruct (answer H c w) as [r w']. simpl. constructor; [exact Hc | apply IH].
Qed.

Lemma run_bind {B} H (p : Prog A) (f : A -> Prog B) w :
  run H (bind p f) w = and_then (run H p w) f.
Proof.
  revert w. induction p as [a|e| |c k IH]; intros w; simpl.
  - unfold and_then. simpl. now destruct (run H (f a) w).
  - reflexivity.
  - reflexivity.
  - destruct (answer H c w) as [r w']. rewrite IH.
    unfold and_then, after_call. simpl.
    now destruct (outcome (run H (k r) w')).
Qed.

End Programs.

Lemma AllCalls_await P c settled :
  P c -> AllCalls P (await c settled).
Proof.
  intros Hc. apply AllCalls_Call; [exact Hc|]. intros r.
  destruct (settled r); constructor.
Qed.

Lemma rename_requests_Forall (cs : list HostCall) (q : string * string) :
  Forall (fun c => forall g new, c = renameFile g new -> (path g, new) = q) cs ->
  Forall (fun x => x = q) (rename_requests cs).
Proof.
  induction 1 as [|c cs Hc _ IH]; simpl; [constructor|].
  destruct c; try exact IH. constructor; [now apply Hc | exact IH].
Qed.

(* ================================================================== *)
(** ** Path mapping *)

Section PathMapper.

Variable settings : SimpleArchiverSettings.

Lemma isFileArchived_iff file :
  isFileArchived settings file = true <->
  exists t, path file = archiveFolder settings ++ t.
Proof.
  unfold isFileArchived, Js.startsWith. split.
  - apply prefix_split.
  - intros [t ->]. apply prefix_append.
Qed.

(** Whatever lies under the root by path segments is reported as archived. *)
Lemma isFileArchived_of_segment_prefix file :
  path_segment_prefix (archiveFolder settings) (path file) = true ->
  isFileArchived settings file = true.
Proof.
  unfold path_segment_prefix. intros H. apply isFileArchived_iff.
  apply orb_true_iff in H as [H | H].
  - apply String.eqb_eq in H. exists "". now rewrite append_empty_r.
  - apply prefix_split in H as [t ->]. exists ("/" ++ t). apply append_assoc.
Qed.

Lemma archive_destinationFilePath_rel_path f :
  is_rel_path (archiveFolder settings) = true ->
  well_placed f ->
  archive_destinationFilePath settings f = archiveFolder settings ++ "/" ++ path f.
Proof.
  intros Hr (Hn & d & Hd & Hcases).
  unfold archive_destinationFilePath, archive_destinationPath, parent_path_text.
  rewrite Hd. apply is_segment_rel_path in Hn.
  destruct Hcases as [(-> & ->) | (Hrel & ->)].
  - rewrite (normalizePath_under_root _ Hr).
    apply normalizePath_rel_path. now apply is_rel_path_join.
  - rewrite (normalizePath_rel_path (archiveFolder settings ++ "/" ++ d))
      by now apply is_rel_path_join.
    replace ((archiveFolder settings ++ "/" ++ d) ++ "/" ++ name f)
      with (archiveFolder settings ++ "/" ++ d ++ "/" ++ name f).
    + apply normalizePath_rel_path.
      apply is_rel_path_join; [exact Hr|]. now apply is_rel_path_join.
    + rewrite (append_assoc (archiveFolder settings)). reflexivity.
Qed.

Lemma conflict_destinationFilePath_rel_path f :
  is_rel_path (archiveFolder settings) = true ->
  well_placed f ->
  conflict_destinationFilePath settings f = archiveFolder settings ++ "/" ++ path f.
Proof.
  intros Hr Hf. apply normalizePath_rel_path.
  apply is_rel_path_join; [exact Hr | now apply well_placed_rel_path].
Qed.

(** Every move requested by [moveFileToArchive] is the move of the file to
    [archive_destinationFilePath]. *)
Lemma moveFileToArchive_requests f :
  AllCalls
    (fun c => forall g new, c = renameFile g new ->
       (path g, new) = (path f, archive_destinationFilePath settings f))
    (moveFileToArchive settings f).
Proof.
  unfold moveFileToArchive. apply AllCalls_Call; [discriminate|]. intros folder.
  apply AllCalls_bind.
  - destruct folder; [constructor | apply AllCalls_await; discriminate].
  - intros _. apply AllCalls_try_catch; [|constructor].
    apply AllCalls_bind; [|constructor].
    apply AllCalls_await. now intros g new [= <- <-].
Qed.

Lemma archiveFile_requests f :
  AllCalls
    (fun c => forall g new, c = renameFile g new ->
       (path g, new) = (path f, archive_destinationFilePath settings f))
    (archiveFile settings f).
Proof.
  unfold archiveFile. destruct (isFileArchived settings f); [constructor|].
  apply AllCalls_Call; [discriminate|]. intros [existing|].
  - apply AllCalls_Call; [discriminate|]. intros [| |]; [|constructor|constructor].
    apply AllCalls_unawaited. apply AllCalls_bind.
    + apply AllCalls_await; discriminate.
    + intros _. apply moveFileToArchive_requests.
  - apply moveFileToArchive_requests.
Qed.

Lemma moveFileOutOfArchive_requests f :
  AllCalls
    (fun c => forall g new, c = renameFile g new ->
       (path g, new) = (path f, normalizePath (originalPath settings f)))
    (moveFileOutOfArchive settings f).
Proof.
  unfold moveFileOutOfArchive. apply AllCalls_bind.
  - destruct (String.eqb _ ""); [constructor|].
    apply AllCalls_Call; [discriminate|].
    intros [folder|]; [constructor | apply AllCalls_await; discriminate].
  - intros _. apply AllCalls_try_catch; [|constructor].
    apply AllCalls_bind; [|constructor].
    apply AllCalls_await. now intros g new [= <- <-].
Qed.

Lemma unarchiveFile_requests f :
  AllCalls
    (fun c => forall g new, c = renameFile g new ->
       (path g, new) = (path f, normalizePath (originalPath settings f)))
    (unarchiveFile settings f).
Proof.
  unfold unarchiveFile. destruct (negb (isFileArchived settings f)); [constructor|].
  apply AllCalls_Call; [discriminate|]. intros [existing|].
  - apply AllCalls_Call; [discriminate|]. intros [| |]; [|constructor|constructor].
    apply AllCalls_unawaited. apply AllCalls_bind.
    + apply AllCalls_await; discriminate.
    + intros _. apply moveFileOutOfArchive_requests.
  - apply moveFileOutOfArchive_requests.
Qed.

End PathMapper.

Lemma todo_well_placed : well_placed SampleHost.todo.
Proof.
  split; [reflexivity|]. exists "Notes". split; [reflexivity|].
  right. split; reflexivity.
Qed.

Lemma a_md_well_placed : well_placed SampleHost.a_md.
Proof.
  split; [reflexivity|]. exists "/". split; [reflexivity|].
  left. split; reflexivity.
Qed.

(** Roots the settings tab accepts and rejects. *)
Example validateArchiveFolderName_values :
  validateArchiveFolderName "Archive" = true /\
  validateArchiveFolderName "Archive/" = true /\
  validateArchiveFolderName "Old/Archive" = true /\
  validateArchiveFolderName ".archive" = false /\
  validateArchiveFolderName "Old/.archive" = false /\
  validateArchiveFolderName "C:Archive" = false.
Proof. repeat split. Qed.

(** C1: the archived check is a plain string-prefix test.  With the default
    root [Archive], an item of the sibling folder [ArchiveX] is reported as
    archived although the root is not a path-segment prefix of its path. *)
Theorem isFileArchived_accepts_sibling_folder :
  let file := TFile "ArchiveX/a.md" "a.md" (Some "ArchiveX") in
  isFileArchived DEFAULT_SETTINGS file = true /\
  path_segment_prefix (archiveFolder DEFAULT_SETTINGS) (path file) = false.
Proof. split; reflexivity. Qed.

(** What follows from it: unarchiving that item is not refused; it asks the
    host to move [ArchiveX/a.md] to [a.md]. *)
Example unarchiveFile_sibling_folder :
  let file := TFile "ArchiveX/a.md" "a.md" (Some "ArchiveX") in
  let r := run SampleHost.host (unarchiveFile DEFAULT_SETTINGS file)
               (SampleHost.vault ClickNo) in
  rename_requests (calls r) = [("ArchiveX/a.md", "a.md")].
Proof. reflexivity. Qed.

(** C2, as stated, fails for a root the settings tab accepts but that is not
    in normal form: with root [Archive/] the item [Notes/todo.md] is moved to
    [Archive/Notes/todo.md], which is not root + "/" + path, and stripping
    root length + 1 characters from it gives [otes/todo.md]. *)
Lemma roundtrip_fails_for_root_with_trailing_slash :
  let settings :=
    {| archiveFolder := "Archive/"; autoArchiveRules := [];
       autoArchiveFrequency := 60 |} in
  let f := SampleHost.todo in
  validateArchiveFolderName (archiveFolder settings) = true /\
  well_placed f /\
  isFileArchived settings f = false /\
  archive_destinationFilePath settings f = "Archive/Notes/todo.md" /\
  archive_destinationFilePath settings f <> archiveFolder settings ++ "/" ++ path f /\
  originalPath settings SampleHost.archived_todo = "otes/todo.md" /\
  originalPath settings SampleHost.archived_todo <> path f.
Proof.
  repeat split; try reflexivity; try discriminate. apply todo_well_placed.
Qed.

(** C2 (amended): for an archive root that is a relative path in normal form
    and a non-archived item placed by the host, every move [archiveFile] can
    request takes the item to root + "/" + path, the path also checked for a
    conflict; an item at that path counts as archived, stripping root
    length + 1 characters from its path gives back the original path, and
    every move [unarchiveFile] can request for it takes it there. *)
Theorem archive_then_unarchive_recovers_path
    (settings : SimpleArchiverSettings) (f g : TAbstractFile) :
  is_rel_path (archiveFolder settings) = true ->
  well_placed f ->
  isFileArchived settings f = false ->
  path g = archiveFolder settings ++ "/" ++ path f ->
  let dest := archiveFolder settings ++ "/" ++ path f in
  conflict_destinationFilePath settings f = dest /\
  archive_destinationFilePath settings f = dest /\
  (forall H w,
     Forall (fun q => q = (path f, dest))
       (rename_requests (calls (run H (archiveFile settings f) w)))) /\
  isFileArchived settings g = true /\
  originalPath settings g = path f /\
  (forall H w,
     Forall (fun q => q = (dest, path f))
       (rename_requests (calls (run H (unarchiveFile settings g) w)))).
Proof.
  intros Hr Hf _ Hg dest.
  assert (Hd : archive_destinationFilePath settings f = dest)
    by now apply archive_destinationFilePath_rel_path.
  assert (Ho : originalPath settings g = path f).
  { unfold originalPath. rewrite Hg. apply substring_from_root_slash. }
  repeat split.
  - now apply conflict_destinationFilePath_rel_path.
  - exact Hd.
  - intros H w. apply rename_requests_Forall. rewrite <- Hd.
    apply AllCalls_run, archiveFile_requests.
  - apply isFileArchived_iff. now exists ("/" ++ path f).
  - exact Ho.
  - intros H w. apply rename_requests_Forall.
    replace (dest, path f)
      with (path g, normalizePath (originalPath settings g)).
    + apply AllCalls_run, unarchiveFile_requests.
    + rewrite Ho, Hg.
      now rewrite (normalizePath_rel_path _ (well_placed_rel_path _ Hf)).
Qed.

(** The scenario of the specification: root [Archive], item
    [Notes/todo.md]. *)
Lemma archive_then_unarchive_recovers_path_witness :
  conflict_destinationFilePath DEFAULT_SETTINGS SampleHost.todo = "Archive/Notes/todo.md" /\
  archive_destinationFilePath DEFAULT_SETTINGS SampleHost.todo = "Archive/Notes/todo.md" /\
  originalPath DEFAULT_SETTINGS SampleHost.archived_todo = "Notes/todo.md".
Proof.
  pose proof (archive_then_unarchive_recovers_path DEFAULT_SETTINGS
                SampleHost.todo SampleHost.archived_todo
                eq_refl todo_well_placed eq_refl eq_refl) as W.
  cbv zeta in W. destruct W as (W1 & W2 & _ & _ & W3 & _).
  exact (conj W1 (conj W2 W3)).
Defined.

(** On the sample host the two moves do happen. *)
Example archive_todo_run :
  let r := run SampleHost.host (archiveFile DEFAULT_SETTINGS SampleHost.todo)
               (SampleHost.vault ClickNo) in
  outcome r = Resolved {| success := true; message := "todo.md archived successfully" |} /\
  rename_requests (calls r) = [("Notes/todo.md", "Archive/Notes/todo.md")].
Proof. split; reflexivity. Qed.

Example unarchive_todo_run :
  let v := SampleHost.with_items (SampleHost.vault ClickNo) [SampleHost.archived_todo] in
  let r := run SampleHost.host (unarchiveFile DEFAULT_SETTINGS SampleHost.archived_todo) v in
  outcome r = Resolved {| success := true; message := "todo.md unarchived successfully" |} /\
  rename_requests (calls r) = [("Archive/Notes/todo.md", "Notes/todo.md")].
Proof. split; reflexivity. Qed.

(* ================================================================== *)
(** ** Numerals *)

Section Numerals.




End Numerals.

(** What [parseInt] makes of some values of a fileAge condition. *)
Example parseInt_values :
  Js.parseInt "7" = Some 7%Z /\
  Js.parseInt "" = None /\
  Js.parseInt "abc" = None /\
  Js.parseInt " 30" = Some 30%Z /\
  Js.parseInt "7 days" = Some 7%Z /\
  Js.parseInt "1.5" = Some 1%Z /\
  Js.parseInt "-3" = Some (-3)%Z /\
  Js.parseInt "0x10" = Some 16%Z.
Proof. repeat split. Qed.

(* ================================================================== *)
(** ** Rule evaluation *)

Section RuleEngine.

Variable RegExp : string -> option (string -> bool).
Variable settings : SimpleArchiverSettings.

(** A condition never throws and never stays pending. *)
Lemma evaluateCondition_resolves file condition H w :
  exists b, outcome (run H (evaluateCondition RegExp file condition) w) = Resolved b.
Proof.
  unfold evaluateCondition, new_RegExp. destruct (type condition).
  - destruct (Js.parseInt (value condition)) as [ageInDays|]; cbn; [|now eexists].
    destruct (answer H (stat (path file)) w) as [[mtime|] w1]; cbn; [|now eexists].
    destruct (answer H Date_now w1) as [now w2]; cbn. now eexists.
  - destruct (RegExp (value condition)) as [regex|]; cbn; [now eexists|].
    destruct (answer H (console_error _ _) w) as [[] w1]; cbn. now eexists.
Qed.

Lemma and_loop_full_evaluation file cs H : forall w,
  exists bs,
    outcome (run H (evaluate_every_condition RegExp file cs) w) = Resolved bs /\
    List.length bs = List.length cs /\
    outcome (run H (and_loop RegExp file cs) w) = Resolved (forallb (fun b => b) bs).
Proof.
  induction cs as [|c cs IH]; intros w.
  - exists []. repeat split.
  - destruct (evaluateCondition_resolves file c H w) as [b Hb].
    destruct (IH (world (run H (evaluateCondition RegExp file c) w)))
      as (bs & Hall & Hlen & Hand).
    exists (b :: bs). cbn [evaluate_every_condition and_loop].
    rewrite !run_bind. unfold and_then. rewrite Hb. cbn [outcome world].
    rewrite run_bind. unfold and_then. rewrite Hall. cbn [outcome].
    split; [reflexivity|]. split; [cbn; now rewrite Hlen|].
    destruct b; cbn; [exact Hand | reflexivity].
Qed.

Lemma or_loop_full_evaluation file cs H : forall w,
  exists bs,
    outcome (run H (evaluate_every_condition RegExp file cs) w) = Resolved bs /\
    List.length bs = List.length cs /\
    outcome (run H (or_loop RegExp file cs) w) = Resolved (existsb (fun b => b) bs).
Proof.
  induction cs as [|c cs IH]; intros w.
  - exists []. repeat split.
  - destruct (evaluateCondition_resolves file c H w) as [b Hb].
    destruct (IH (world (run H (evaluateCondition RegExp file c) w)))
      as (bs & Hall & Hlen & Hor).
    exists (b :: bs). cbn [evaluate_every_condition or_loop].
    rewrite !run_bind. unfold and_then. rewrite Hb. cbn [outcome world].
    rewrite run_bind. unfold and_then. rewrite Hall. cbn [outcome].
    split; [reflexivity|]. split; [cbn; now rewrite Hlen|].
    destruct b; cbn; [reflexivity | exact Hor].
Qed.





End RuleEngine.

Section Conditions.

Variable RegExp : string -> option (string -> bool).
Variable settings : SimpleArchiverSettings.

(** C4: for an archived file, and for a rule without conditions, rule
    evaluation is the program that returns false at once, whatever the logic
    operator: on every host it resolves to false, calls nothing and leaves
    the world as it was. *)
Theorem evaluateAutoArchiveRule_guards
    (file : TAbstractFile) (rule : AutoArchiveRule) :
  isFileArchived settings file = true \/ conditions rule = [] ->
  evaluateAutoArchiveRule RegExp settings file rule = Ret false /\
  forall H w,
    let r := run H (evaluateAutoArchiveRule RegExp settings file rule) w in
    outcome r = Resolved false /\ calls r = [] /\ world r = w.
Proof.
  intros Hguard.
  assert (E : evaluateAutoArchiveRule RegExp settings file rule = Ret false).
  { unfold evaluateAutoArchiveRule.
    destruct (isFileArchived settings file); [reflexivity|].
    destruct Hguard as [Hguard | ->]; [discriminate | reflexivity]. }
  split; [exact E|]. intros H w. rewrite E. repeat split.
Qed.



(** C10: a fileAge condition with a numeric value, on a file for which the
    host's [stat] returns null, resolves to false after that one call. *)
Theorem evaluateCondition_fileAge_without_stats
    (file : TAbstractFile) (condition : AutoArchiveCondition)
    (H : Host) (w : World H) (days : Z) :
  type condition = fileAge ->
  Js.parseInt (value condition) = Some days ->
  fst (answer H (stat (path file)) w) = None ->
  let r := run H (evaluateCondition RegExp file condition) w in
  outcome r = Resolved false /\ calls r = [stat (path file)].
Proof.
  intros Htype Hdays Hstat. unfold evaluateCondition. rewrite Htype, Hdays. cbn.
  destruct (answer H (stat (path file)) w) as [stats w1]. cbn in Hstat |- *.
  subst stats. split; reflexivity.
Qed.

(** C6: a regexPattern condition whose value the engine rejects resolves to
    false on every host, after reporting the error to the console and
    without throwing; one whose value compiles is the program that returns
    the result of testing the file's name. *)
Theorem evaluateCondition_regexPattern
    (file : TAbstractFile) (condition : AutoArchiveCondition) :
  type condition = regexPattern ->
  (RegExp (value condition) = None ->
     forall H w,
       let r := run H (evaluateCondition RegExp file condition) w in
       outcome r = Resolved false /\
       exists error,
         calls r =
           [console_error
              ("Invalid regex pattern in auto-archive rule: " ++ value condition)
              error]) /\
  (forall regex,
     RegExp (value condition) = Some regex ->
     evaluateCondition RegExp file condition = Ret (regex (name file))).
Proof.
  intros Htype. unfold evaluateCondition, new_RegExp. rewrite Htype. split.
  - intros -> H w. cbn.
    destruct (answer H (console_error _ _) w) as [[] w1]. cbn.
    split; [reflexivity | now eexists].
  - now intros regex ->.
Qed.

End Conditions.

(* ================================================================== *)
(** ** Archiving and the sweep *)

Section Orchestrator.

Variable RegExp : string -> option (string -> bool).
Variable settings : SimpleArchiverSettings.


(** C7: when the item is not archived, the destination is occupied and the
    user answers the prompt with its second button (Cancel), [archiveFile]
    resolves with the failed result [Archive operation cancelled]; the host
    was asked for the occupant and for the decision and for nothing else: no
    folder was created, no item moved or trashed. *)
Theorem archiveFile_conflict_cancelled
    (file existing : TAbstractFile) (H : Host) (w : World H) :
  isFileArchived settings file = false ->
  let lookup := getAbstractFileByPath (conflict_destinationFilePath settings file) in
  fst (answer H lookup w) = Some existing ->
  fst (answer H (archive_conflict_prompt file) (snd (answer H lookup w))) = ClickNo ->
  let r := run H (archiveFile settings file) w in
  outcome r =
    Resolved {| success := false; message := "Archive operation cancelled" |} /\
  calls r = [lookup; archive_conflict_prompt file] /\
  existsb mutates (calls r) = false /\
  world r = snd (answer H (archive_conflict_prompt file) (snd (answer H lookup w))) /\
  Js.includes "Archive operation cancelled" "operation cancelled" = true.
Proof.
  intros Harch lookup Hexisting Hcancel. unfold archiveFile. rewrite Harch.
  cbn. fold lookup. unfold archive_conflict_prompt in *.
  destruct (answer H lookup w) as [existingItem w1]. cbn in Hexisting, Hcancel |- *.
  subst existingItem. cbn.
  match goal with
  | |- context [answer H ?c w1] => destruct (answer H c w1) as [decision w2]
  end.
  cbn in Hcancel |- *. subst decision. cbn. repeat split.
Qed.




End Orchestrator.

(* ================================================================== *)
(** ** The theorems at work on the sample host *)



Lemma evaluateAutoArchiveRule_guards_witness :
  let rule := {| id := "r"; enabled := true; folderPath := "Notes";
                 conditions := []; logicOperator := OR |} in
  evaluateAutoArchiveRule SampleHost.RegExp DEFAULT_SETTINGS SampleHost.todo rule
    = Ret false.
Proof.
  intros rule.
  apply (evaluateAutoArchiveRule_guards SampleHost.RegExp DEFAULT_SETTINGS
           SampleHost.todo rule).
  right. reflexivity.
Defined.


Lemma evaluateCondition_fileAge_without_stats_witness :
  let condition := {| type := fileAge; value := "7" |} in
  let r := run SampleHost.host
             (evaluateCondition SampleHost.RegExp SampleHost.archived_todo condition)
             (SampleHost.vault ClickNo) in
  outcome r = Resolved false /\ calls r = [stat "Archive/Notes/todo.md"].
Proof.
  intros condition.
  apply (evaluateCondition_fileAge_without_stats SampleHost.RegExp
           SampleHost.archived_todo condition SampleHost.host
           (SampleHost.vault ClickNo) 7%Z); reflexivity.
Defined.

Lemma evaluateCondition_regexPattern_witness :
  let condition := {| type := regexPattern; value := "[a-" |} in
  outcome (run SampleHost.host
             (evaluateCondition SampleHost.RegExp SampleHost.todo condition)
             (SampleHost.vault ClickNo)) = Resolved false.
Proof.
  intros condition.
  destruct (evaluateCondition_regexPattern SampleHost.RegExp SampleHost.todo
              condition eq_refl) as (W & _).
  exact (proj1 (W eq_refl SampleHost.host (SampleHost.vault ClickNo))).
Defined.

Lemma archiveFile_conflict_cancelled_witness :
  let r := run SampleHost.host (archiveFile DEFAULT_SETTINGS SampleHost.a_md)
               (SampleHost.vault ClickNo) in
  outcome r =
    Resolved {| success := false; message := "Archive operation cancelled" |} /\
  existsb mutates (calls r) = false.
Proof.
  destruct (archiveFile_conflict_cancelled DEFAULT_SETTINGS SampleHost.a_md
              SampleHost.archived_a_md SampleHost.host (SampleHost.vault ClickNo)
              eq_refl eq_refl eq_refl) as (W1 & _ & W2 & _ & _).
  exact (conj W1 W2).
Defined.


(** Cancelling leaves the sample vault as it was. *)
Example cancel_leaves_vault :
  world (run SampleHost.host (archiveFile DEFAULT_SETTINGS SampleHost.a_md)
           (SampleHost.vault ClickNo))
  = SampleHost.vault ClickNo.
Proof. reflexivity. Qed.

(** Replacing trashes the occupant and then moves the item. *)
Example replace_trashes_then_moves :
  let r := run SampleHost.host (archiveFile DEFAULT_SETTINGS SampleHost.a_md)
               (SampleHost.vault ClickYes) in
  outcome r = Resolved {| success := true; message := "a.md archived successfully" |} /\
  filter mutates (calls r) =
    [trashFile SampleHost.archived_a_md; renameFile SampleHost.a_md "Archive/a.md"].
Proof. split; reflexivity. Qed.

(** A prompt closed without a decision leaves the promise pending. *)
Example dismissed_prompt_never_settles :
  outcome (run SampleHost.host (archiveFile DEFAULT_SETTINGS SampleHost.a_md)
             (SampleHost.vault Dismiss)) = NeverSettles.
Proof. reflexivity. Qed.

(** The sweep of the specification's scenario: the rule on the missing
    folder is passed over, the old direct child of [Inbox] is archived, the
    fresh one and the note in [Inbox/Sub] stay. *)
Example sweep_inbox :
  let r := run SampleHost.host
             (processAutoArchiveRules SampleHost.RegExp SampleHost.inbox_settings)
             SampleHost.inbox_vault in
  outcome r = Resolved tt /\
  rename_requests (calls r) = [("Inbox/old.md", "Archive/Inbox/old.md")] /\
  SampleHost.console (world r) = ["Auto-archive: 1 files archived"].
Proof. repeat split. Qed.

(* ================================================================== *)
(** ** The settings *)

Lemma prefix_cons (a b : ascii) (s t : string) :
  String.prefix (String a s) (String b t) = Ascii.eqb b a && String.prefix s t.
Proof.
  cbn. destruct (ascii_dec a b) as [->|ne].
  - now rewrite Ascii.eqb_refl.
  - destruct (Ascii.eqb_spec b a) as [->|_]; [now elim ne | reflexivity].
Qed.

Lemma prefix_empty (t : string) : String.prefix "" t = true.
Proof. now destruct t. Qed.

Lemma starts_with_dot (value : string) :
  match value with String "." _ => true | _ => false end = String.prefix "." value.
Proof.
  destruct value as [|c rest]; [reflexivity|].
  rewrite prefix_cons, prefix_empty, andb_true_r.
  destruct c as [[] [] [] [] [] [] [] []]; reflexivity.
Qed.

Lemma has_colon_includes (s : string) : has_colon s = Js.includes s ":".
Proof.
  induction s as [|c s IH]; [reflexivity|].
  cbn [has_colon Js.includes]. now rewrite prefix_cons, prefix_empty, andb_true_r, IH.
Qed.

Lemma has_sep_then_dot_includes (s : string) :
  has_sep_then_dot s =
  Js.includes s ":." || Js.includes s "/." || Js.includes s "\.".
Proof.
  induction s as [|c s IH]; [reflexivity|].
  cbn [has_sep_then_dot Js.includes]. rewrite IH, !prefix_cons, starts_with_dot.
  unfold is_sep.
  destruct (Ascii.eqb c ":"), (Ascii.eqb c "/"), (Ascii.eqb c "\"),
    (String.prefix "." s), (Js.includes s ":."), (Js.includes s "/."),
    (Js.includes s "\."); reflexivity.
Qed.

Lemma includes_colon_dot (s : string) :
  Js.includes s ":." = true -> Js.includes s ":" = true.
Proof.
  induction s as [|c s IH]; [discriminate|].
  cbn [Js.includes]. rewrite !prefix_cons, prefix_empty, andb_true_r.
  intros H. apply orb_true_iff in H as [H | H].
  - apply andb_true_iff in H as [-> _]. reflexivity.
  - rewrite (IH H). apply orb_true_r.
Qed.

(** X1: the settings tab accepts a folder name exactly when it does not
    start with a dot, holds no colon, and holds neither a slash nor a
    backslash followed by a dot.  (A name with a plain slash or backslash is
    accepted.) *)
Theorem validateArchiveFolderName_iff (value : string) :
  validateArchiveFolderName value = true <->
  Js.startsWith value "." = false /\
  Js.includes value ":" = false /\
  Js.includes value "/." = false /\
  Js.includes value "\." = false.
Proof.
  unfold validateArchiveFolderName, Js.startsWith.
  rewrite starts_with_dot, has_sep_then_dot_includes, has_colon_includes.
  pose proof (includes_colon_dot value) as Himp.
  destruct (String.prefix "." value), (Js.includes value ":"),
    (Js.includes value "/."), (Js.includes value "\."),
    (Js.includes value ":."); cbn; intuition congruence.
Qed.

Lemma last_cons_default {A} (a d : A) (l : list A) : last (a :: l) d = last l a.
Proof.
  revert a d. induction l as [|b l IH]; intros a d; [reflexivity|].
  change (last (a :: b :: l) d) with (last (b :: l) d).
  now rewrite (IH b d), (IH b a).
Qed.

(** X2: after any series of inputs to the archive-folder field, the archive
    folder is the last input that passed validation, or the previous value
    if none did; rules and frequency are untouched. *)
Theorem type_archive_folders_last_valid
    (values : list string) (settings : SimpleArchiverSettings) :
  archiveFolder (type_archive_folders values settings) =
    last (filter validateArchiveFolderName values) (archiveFolder settings) /\
  autoArchiveRules (type_archive_folders values settings) = autoArchiveRules settings /\
  autoArchiveFrequency (type_archive_folders values settings) =
    autoArchiveFrequency settings.
Proof.
  unfold type_archive_folders. revert settings.
  induction values as [|value values IH]; intros settings; [repeat split|].
  cbn [fold_left filter]. destruct (IH (snd (setArchiveFolder value settings)))
    as (Hfolder & Hrules & Hfreq).
  rewrite Hfolder, Hrules, Hfreq. unfold setArchiveFolder.
  destruct (validateArchiveFolderName value); cbn [negb snd archiveFolder
    autoArchiveRules autoArchiveFrequency].
  - rewrite last_cons_default. repeat split.
  - repeat split.
Qed.

Lemma with_default_logicOperator_stored_rule (rule : AutoArchiveRule) :
  with_default_logicOperator (stored_rule rule) = rule.
Proof. now destruct rule. Qed.

(** X3: settings that were saved load back unchanged; when nothing was
    saved the defaults are loaded; and a stored rule without a logic
    operator loads as an AND rule with its other fields as stored, the rules
    keeping their order. *)
Theorem loadSettings_saveSettings (settings : SimpleArchiverSettings) :
  loadSettings (Some (saveSettings settings)) = settings /\
  loadSettings None = DEFAULT_SETTINGS /\
  (forall folder rules frequency,
     let loaded :=
       autoArchiveRules
         (loadSettings
            (Some {| stored_archiveFolder := folder;
                     stored_autoArchiveRules := Some rules;
                     stored_autoArchiveFrequency := frequency |})) in
     map id loaded = map stored_id rules /\
     map conditions loaded = map stored_conditions rules /\
     map logicOperator loaded
       = map (fun rule => match stored_logicOperator rule with
                          | Some op => op
                          | None => AND
                          end) rules).
Proof.
  split; [|split; [reflexivity|]].
  - destruct settings as [folder rules frequency]. unfold loadSettings, saveSettings.
    cbn. f_equal. rewrite map_map.
    induction rules as [|rule rules IH]; [reflexivity|].
    cbn [map]. now rewrite with_default_logicOperator_stored_rule, IH.
  - intros folder rules frequency. cbn. rewrite !map_map. repeat split.
Qed.

(* ================================================================== *)
(** ** Commands and menus *)

Section Menus.

Variable settings : SimpleArchiverSettings.

(** X4: for the file of the active view exactly one of the two commands is
    available, and exactly one entry is added to its context menu: the
    archive one if the file does not count as archived, the unarchive one if
    it does.  Without a file neither command is available, and a mere check
    starts no work. *)
Theorem one_command_per_file (file : TAbstractFile) (checking : bool) :
  fst (move_to_archive_check settings checking (Some file))
    = negb (isFileArchived settings file) /\
  fst (move_out_of_archive_check settings checking (Some file))
    = isFileArchived settings file /\
  map title (on_file_menu settings [] file)
    = [if isFileArchived settings file
       then "Move out of archive" else "Move to archive"] /\
  fst (move_to_archive_check settings checking None) = false /\
  fst (move_out_of_archive_check settings checking None) = false /\
  snd (move_to_archive_check settings true (Some file)) = None /\
  snd (move_out_of_archive_check settings true (Some file)) = None.
Proof.
  unfold move_to_archive_check, move_out_of_archive_check, on_file_menu,
    file_menu_archive, file_menu_unarchive.
  destruct (isFileArchived settings file); cbn; repeat split.
Qed.

Lemma existsb_negb_forallb {A} (f : A -> bool) (l : list A) :
  existsb f l = negb (forallb (fun x => negb (f x)) l).
Proof.
  induction l as [|x l IH]; [reflexivity|]. cbn. rewrite IH.
  now destruct (f x).
Qed.

(** X5: for a selection of several items the menu gets "Move all to archive"
    exactly when no item counts as archived and "Move all out of archive"
    exactly when every item does: one entry for a uniform selection, none for
    a mixed one, and both for an empty one. *)
Theorem files_menu_entries (files : list TAbstractFile) :
  let none_archived := forallb (fun file => negb (isFileArchived settings file)) files in
  let all_archived := forallb (fun file => isFileArchived settings file) files in
  map title (on_files_menu settings [] files)
    = ((if none_archived then ["Move all to archive"] else []) ++
       (if all_archived then ["Move all out of archive"] else []))%list /\
  (none_archived && all_archived = true <-> files = []).
Proof.
  cbv zeta. split.
  - unfold on_files_menu, files_menu_archive, files_menu_unarchive.
    rewrite !existsb_negb_forallb.
    replace (forallb (fun x => negb (negb (isFileArchived settings x))) files)
      with (forallb (fun file => isFileArchived settings file) files).
    + destruct (forallb (fun x => negb (isFileArchived settings x)) files),
        (forallb (fun file => isFileArchived settings file) files); reflexivity.
    + induction files as [|file files IH]; [reflexivity|]. cbn.
      now rewrite IH, negb_involutive.
  - destruct files as [|file files]; [now split|]. cbn.
    destruct (isFileArchived settings file); cbn.
    + split; [discriminate | discriminate].
    + rewrite andb_false_r. split; [discriminate | discriminate].
Qed.

End Menus.

(* ================================================================== *)
(** ** The list of rules *)

Lemma delete_rule_In (rule r : AutoArchiveRule) (rules : list AutoArchiveRule) :
  In r (delete_rule rule rules) <-> In r rules /\ id r <> id rule.
Proof.
  unfold delete_rule. rewrite filter_In.
  destruct (String.eqb_spec (id r) (id rule)); cbn; intuition congruence.
Qed.

Lemma delete_rule_absent (rule : AutoArchiveRule) (rules : list AutoArchiveRule) :
  ~ In (id rule) (map id rules) -> delete_rule rule rules = rules.
Proof.
  unfold delete_rule. induction rules as [|r rules IH]; intros Hnot; [reflexivity|].
  cbn in Hnot |- *. destruct (String.eqb_spec (id r) (id rule)) as [E|_].
  - elim Hnot. now left.
  - cbn. rewrite IH; [reflexivity|]. intros Hin. apply Hnot. now right.
Qed.

(** X6: when the ids of the rules are distinct, deleting a rule of the list
    removes that rule and nothing else: the rules before it and after it
    stay, in their order. *)
Theorem delete_rule_unique_id
    (rule : AutoArchiveRule) (before after : list AutoArchiveRule) :
  NoDup (map id (before ++ rule :: after)%list) ->
  delete_rule rule (before ++ rule :: after)%list = (before ++ after)%list.
Proof.
  intros Hnodup. rewrite map_app in Hnodup. cbn [map] in Hnodup.
  pose proof (NoDup_remove_2 _ _ _ Hnodup) as Hnot.
  rewrite in_app_iff in Hnot.
  unfold delete_rule. rewrite filter_app. cbn [filter].
  rewrite String.eqb_refl. cbn [negb].
  fold (delete_rule rule before). fold (delete_rule rule after).
  rewrite !delete_rule_absent; [reflexivity | tauto | tauto].
Qed.

Lemma delete_rule_unique_id_witness :
  delete_rule (SampleHost.week_rule "Inbox")
    [new_rule "a"; SampleHost.week_rule "Inbox"; new_rule "b"]
  = [new_rule "a"; new_rule "b"].
Proof.
  apply (delete_rule_unique_id (SampleHost.week_rule "Inbox") [new_rule "a"] [new_rule "b"]).
  cbn. repeat constructor; cbn; intuition discriminate.
Defined.

(** X7: adding a rule and cancelling its modal at once gives back the list
    of rules as it was, provided the new id occurs in no rule of the list;
    a rule added that way is enabled, has no conditions, and sits last. *)
Theorem add_then_cancel (uuid : string) (rules : list AutoArchiveRule) :
  ~ In uuid (map id rules) ->
  cancel_rule_modal (new_rule uuid) (addAutoArchiveRule uuid rules) = rules /\
  addAutoArchiveRule uuid rules = (rules ++ [new_rule uuid])%list /\
  enabled (new_rule uuid) = true /\
  conditions (new_rule uuid) = [].
Proof.
  intros Hfresh. split; [|repeat split].
  unfold cancel_rule_modal, addAutoArchiveRule. cbn [new_rule folderPath String.eqb].
  unfold delete_rule. rewrite filter_app. cbn [filter new_rule id].
  rewrite String.eqb_refl. cbn [negb]. rewrite app_nil_r.
  now apply (delete_rule_absent (new_rule uuid)).
Qed.

Lemma add_then_cancel_witness :
  cancel_rule_modal (new_rule "b") (addAutoArchiveRule "b" [new_rule "a"])
  = [new_rule "a"].
Proof.
  apply (add_then_cancel "b" [new_rule "a"]). cbn. intuition discriminate.
Defined.

(* ================================================================== *)
(** ** The timer *)

Lemma filter_older_handles (l : list (nat * Z)) (n handle : nat) :
  Forall (fun e => fst e < n) l ->
  n <= handle ->
  filter (fun e => negb (fst e =? handle)%nat) l = l.
Proof.
  intros Hall Hle. induction Hall as [|e l He _ IH]; [reflexivity|]. cbn.
  destruct (Nat.eqb_spec (fst e) handle) as [E|_]; [lia|]. cbn. now rewrite IH.
Qed.

Section Timer.

Variable w0 : Timers.Window.
Hypothesis w0_well_formed : Timers.well_formed w0.

Lemma clear_foreign_intervals handle :
  Timers.next_handle w0 <= handle ->
  filter (fun e => negb (fst e =? handle)%nat) (Timers.intervals w0)
    = Timers.intervals w0.
Proof.
  intros Hle. now apply (filter_older_handles _ (Timers.next_handle w0)).
Qed.

(** Clearing the plugin's interval leaves the intervals of [w0]. *)
Lemma clear_own_interval this w :
  timer_invariant w0 (this, w) ->
  Timers.intervals
    match autoArchiveInterval this with
    | Some handle => Timers.clearInterval handle w
    | None => w
    end = Timers.intervals w0.
Proof.
  intros (Hint & _ & Hhandle). cbn [fst snd] in *. unfold own_interval in Hint.
  destruct (autoArchiveInterval this) as [handle|]; [|exact Hint].
  destruct (Hhandle handle eq_refl) as [Hle _].
  cbn [Timers.clearInterval Timers.intervals]. rewrite Hint. cbn [app filter fst].
  rewrite Nat.eqb_refl. cbn [negb]. now apply clear_foreign_intervals.
Qed.

(** Scheduling restores the invariant whatever the frequency has become. *)
Lemma scheduleAutoArchive_invariant this this' w :
  timer_invariant w0 (this, w) ->
  autoArchiveInterval this' = autoArchiveInterval this ->
  timer_invariant w0 (scheduleAutoArchive this' w).
Proof.
  intros Hinv Hsame_handle. pose proof (clear_own_interval this w Hinv) as Hclear.
  destruct Hinv as (_ & Hnext & _). cbn [fst snd] in Hnext.
  unfold scheduleAutoArchive, timer_invariant. rewrite Hsame_handle.
  assert (Hsame : Timers.next_handle
            match autoArchiveInterval this with
            | Some handle => Timers.clearInterval handle w
            | None => w
            end = Timers.next_handle w)
    by now destruct (autoArchiveInterval this).
  cbn [Timers.setInterval fst snd Timers.intervals Timers.next_handle
         own_interval autoArchiveInterval plugin_settings app].
  rewrite Hclear, Hsame. split; [reflexivity|]. split; [lia|].
  intros handle [= <-]. lia.
Qed.

Lemma onunload_invariant this w :
  timer_invariant w0 (this, w) -> timer_invariant w0 (onunload this w).
Proof.
  intros Hinv. pose proof (clear_own_interval this w Hinv) as Hclear.
  unfold onunload. destruct (autoArchiveInterval this) as [handle|] eqn:E; [|exact Hinv].
  destruct Hinv as (_ & Hnext & _). cbn [fst snd] in Hnext.
  unfold timer_invariant. cbn [fst snd own_interval autoArchiveInterval app].
  split; [exact Hclear|]. split; [exact Hnext | discriminate].
Qed.

Lemma timer_step_invariant state e :
  timer_invariant w0 state -> timer_invariant w0 (timer_step state e).
Proof.
  destruct state as [this w]. intros Hinv. destruct e; cbn [timer_step fst snd].
  - now apply (scheduleAutoArchive_invariant this).
  - unfold frequency_onChange. now apply (scheduleAutoArchive_invariant this).
  - now apply onunload_invariant.
Qed.

Lemma timer_events_invariant events : forall state,
  timer_invariant w0 state -> timer_invariant w0 (fold_left timer_step events state).
Proof.
  induction events as [|e events IH]; intros state Hinv; [exact Hinv|].
  cbn [fold_left]. apply IH. now apply timer_step_invariant.
Qed.

End Timer.

(** X8: start with the plugin holding no interval, in a window whose handles
    are all older than the next one.  After any series of scheduling,
    frequency changes and unloading, the window holds the intervals it had
    plus at most one of the plugin: none if the plugin's handle is null, else
    the one with that handle, whose period is the current frequency in
    minutes times 60000. *)
Theorem at_most_one_interval
    (w0 : Timers.Window) (settings : SimpleArchiverSettings) (events : list TimerEvent) :
  Timers.well_formed w0 ->
  let state :=
    fold_left timer_step events
      ({| plugin_settings := settings; autoArchiveInterval := None |}, w0) in
  Timers.intervals (snd state)
    = (own_interval (fst state) ++ Timers.intervals w0)%list /\
  List.length (own_interval (fst state)) <= 1.
Proof.
  intros Hwf state.
  assert (Hinv : timer_invariant w0 state).
  { apply timer_events_invariant; [exact Hwf|].
    split; [reflexivity|]. split; [cbn; lia | discriminate]. }
  split; [apply Hinv|]. unfold own_interval.
  destruct (autoArchiveInterval (fst state)); cbn; lia.
Qed.

(** Scheduling twice, changing the frequency to 5 minutes and scheduling
    again leaves one interval of 300000 ms; unloading leaves none. *)
Lemma at_most_one_interval_witness :
  let w0 := {| Timers.next_handle := 4; Timers.intervals := [(2, 1000%Z)] |} in
  let events := [Schedule; Schedule; ChangeFrequency 5; Schedule] in
  let state :=
    fold_left timer_step events
      ({| plugin_settings := DEFAULT_SETTINGS; autoArchiveInterval := None |}, w0) in
  Timers.intervals (snd state) = [(7, 300000%Z); (2, 1000%Z)] /\
  Timers.intervals (snd (timer_step state Unload)) = [(2, 1000%Z)].
Proof.
  intros w0 events state. split.
  - assert (Hwf : Timers.well_formed w0) by (repeat constructor).
    exact (proj1 (at_most_one_interval w0 DEFAULT_SETTINGS events Hwf)).
  - assert (Hwf : Timers.well_formed w0) by (repeat constructor).
    exact (proj1 (at_most_one_interval w0 DEFAULT_SETTINGS (events ++ [Unload])%list Hwf)).
Defined.

(* ================================================================== *)
(** ** More on rule evaluation *)

Section Evaluation.

Variable RegExp : string -> option (string -> bool).
Variable settings : SimpleArchiverSettings.

Lemma evaluateCondition_calls file condition :
  AllCalls (condition_call file) (evaluateCondition RegExp file condition).
Proof.
  unfold evaluateCondition, new_RegExp, condition_call. destruct (type condition).
  - destruct (Js.parseInt (value condition)); [|constructor].
    apply AllCalls_Call; [now left|]. intros [mtime|]; [|constructor].
    apply AllCalls_Call; [right; now left|]. intros now_. constructor.
  - destruct (RegExp (value condition)); cbn; [constructor|].
    apply AllCalls_Call; [right; right; now eexists; eexists|]. intros _. constructor.
Qed.

Lemma evaluateAutoArchiveRule_calls file rule :
  AllCalls (condition_call file) (evaluateAutoArchiveRule RegExp settings file rule).
Proof.
  unfold evaluateAutoArchiveRule.
  destruct (isFileArchived settings file); [constructor|].
  destruct (List.length (conditions rule) =? 0)%nat; [constructor|].
  destruct (logicOperator rule);
    induction (conditions rule) as [|c cs IH]; cbn; try constructor.
  - apply AllCalls_bind; [apply evaluateCondition_calls|].
    intros [|]; cbn; [exact IH | constructor].
  - apply AllCalls_bind; [apply evaluateCondition_calls|].
    intros [|]; cbn; [constructor | exact IH].
Qed.

(** X9: evaluating a rule on a file only reads: on every host the calls it
    makes are [stat] on the path of that file, readings of the clock and
    error reports to the console; it opens no prompt and changes nothing in
    the vault. *)
Theorem evaluateAutoArchiveRule_only_reads
    (file : TAbstractFile) (rule : AutoArchiveRule) (H : Host) (w : World H) :
  let r := run H (evaluateAutoArchiveRule RegExp settings file rule) w in
  Forall (condition_call file) (calls r) /\
  existsb mutates (calls r) = false.
Proof.
  cbv zeta.
  pose proof (AllCalls_run _ _ H (evaluateAutoArchiveRule_calls file rule) w) as Hall.
  split; [exact Hall|].
  induction Hall as [|c cs Hc _ IH]; [reflexivity|]. cbn. rewrite IH.
  destruct Hc as [-> | [-> | (msg & error & ->)]]; reflexivity.
Qed.

(** X10: with a single condition the logic operator makes no difference:
    the rule read as AND and the rule read as OR run alike on every host. *)
Theorem single_condition_operator_irrelevant
    (file : TAbstractFile) (rule_id folder : string) (on : bool)
    (condition : AutoArchiveCondition) (H : Host) (w : World H) :
  run H (evaluateAutoArchiveRule RegExp settings file
           {| id := rule_id; enabled := on; folderPath := folder;
              conditions := [condition]; logicOperator := AND |}) w
  = run H (evaluateAutoArchiveRule RegExp settings file
             {| id := rule_id; enabled := on; folderPath := folder;
                conditions := [condition]; logicOperator := OR |}) w.
Proof.
  unfold evaluateAutoArchiveRule. cbn [conditions logicOperator List.length Nat.eqb].
  destruct (isFileArchived settings file); [reflexivity|].
  cbn [and_loop or_loop]. rewrite !run_bind. unfold and_then.
  destruct (outcome (run H (evaluateCondition RegExp file condition) w)) as [[|]| |];
    reflexivity.
Qed.

(** X11: a file that a rule matches under AND is matched by the same
    conditions under OR, on the same host in the same state. *)
Theorem and_match_is_or_match
    (file : TAbstractFile) (rule_id folder : string) (on : bool)
    (cs : list AutoArchiveCondition) (H : Host) (w : World H) :
  outcome (run H (evaluateAutoArchiveRule RegExp settings file
                    {| id := rule_id; enabled := on; folderPath := folder;
                       conditions := cs; logicOperator := AND |}) w)
    = Resolved true ->
  outcome (run H (evaluateAutoArchiveRule RegExp settings file
                    {| id := rule_id; enabled := on; folderPath := folder;
                       conditions := cs; logicOperator := OR |}) w)
    = Resolved true.
Proof.
  unfold evaluateAutoArchiveRule. cbn [conditions logicOperator].
  destruct (isFileArchived settings file); [discriminate|].
  destruct cs as [|c cs]; [discriminate|]. cbn [List.length Nat.eqb].
  destruct (and_loop_full_evaluation RegExp file (c :: cs) H w) as (bs & Hall & Hlen & Hand).
  destruct (or_loop_full_evaluation RegExp file (c :: cs) H w) as (bs' & Hall' & _ & Hor).
  rewrite Hall in Hall'. injection Hall' as <-.
  rewrite Hand, Hor. intros [= Hbs]. f_equal.
  destruct bs as [|b bs]; [discriminate|]. cbn in Hbs |- *.
  apply andb_true_iff in Hbs as [-> _]. reflexivity.
Qed.

End Evaluation.

Lemma and_match_is_or_match_witness :
  outcome (run SampleHost.host
             (evaluateAutoArchiveRule SampleHost.RegExp DEFAULT_SETTINGS SampleHost.a_md
                {| id := "r"; enabled := true; folderPath := "";
                   conditions := [{| type := fileAge; value := "7" |};
                                  {| type := regexPattern; value := "md" |}];
                   logicOperator := OR |})
             (SampleHost.vault ClickNo))
  = Resolved true.
Proof.
  apply (and_match_is_or_match SampleHost.RegExp DEFAULT_SETTINGS). reflexivity.
Defined.

(* ================================================================== *)
(** ** More on the sweep *)

Lemma Forall_calls_and_then {H A B} (P : HostCall -> Prop)
    (r : Run H A) (f : A -> Prog B) :
  Forall P (calls r) ->
  (forall a, outcome r = Resolved a -> Forall P (calls (run H (f a) (world r)))) ->
  Forall P (calls (and_then r f)).
Proof.
  intros Hr Hf. unfold and_then. destruct (outcome r) as [a| |]; cbn; try exact Hr.
  apply Forall_app. split; [exact Hr | now apply Hf].
Qed.

Section Sweep.

Variable RegExp : string -> option (string -> bool).
Variable settings : SimpleArchiverSettings.

Lemma moveFileToArchive_moves_the_file file :
  AllCalls
    (fun c => forall item newPath, c = renameFile item newPath ->
       item = file /\ newPath = archive_destinationFilePath settings file)
    (moveFileToArchive settings file).
Proof.
  unfold moveFileToArchive. apply AllCalls_Call; [discriminate|]. intros folder.
  apply AllCalls_bind.
  - destruct folder; [constructor | apply AllCalls_await; discriminate].
  - intros _. apply AllCalls_try_catch; [|constructor].
    apply AllCalls_bind; [|constructor].
    apply AllCalls_await. now intros item newPath [= <- <-].
Qed.

Lemma archiveFile_sweep_moves file :
  instanceof_TFile file = true ->
  AllCalls (sweep_move settings) (archiveFile settings file).
Proof.
  intros Hfile.
  assert (Hmove : isFileArchived settings file = false ->
                  AllCalls (sweep_move settings) (moveFileToArchive settings file)).
  { intros Harch. pose proof (moveFileToArchive_moves_the_file file) as Hall.
    induction Hall; constructor; auto.
    intros item newPath E. destruct (H _ _ E) as [-> ->]. auto. }
  unfold archiveFile. destruct (isFileArchived settings file); [constructor|].
  apply AllCalls_Call; [discriminate|]. intros [existing|]; [|now apply Hmove].
  apply AllCalls_Call; [discriminate|]. intros [| |]; [|constructor|constructor].
  apply AllCalls_unawaited. apply AllCalls_bind.
  - apply AllCalls_await. discriminate.
  - intros _. now apply Hmove.
Qed.

Lemma archive_gathered_sweep_moves files : forall total,
  Forall (fun file => instanceof_TFile file = true) files ->
  AllCalls (sweep_move settings) (archive_gathered settings files total).
Proof.
  induction files as [|file files IH]; intros total Hfiles; [constructor|].
  inversion Hfiles as [|? ? Hfile Hrest]; subst. cbn [archive_gathered].
  apply AllCalls_bind; [now apply archiveFile_sweep_moves|].
  intros result. now apply IH.
Qed.

Lemma condition_call_sweep_move file cs :
  Forall (condition_call file) cs -> Forall (sweep_move settings) cs.
Proof.
  induction 1 as [|c cs Hc _ IH]; constructor; [|exact IH].
  intros item newPath ->.
  destruct Hc as [E | [E | (msg & error & E)]]; discriminate.
Qed.

Lemma gather_filesToArchive_files rule H : forall cs matched w,
  Forall (fun file => instanceof_TFile file = true) matched ->
  let r := run H (gather_filesToArchive RegExp settings rule cs matched) w in
  Forall (sweep_move settings) (calls r) /\
  forall files, outcome r = Resolved files ->
    Forall (fun file => instanceof_TFile file = true) files.
Proof.
  induction cs as [|child cs IH]; intros matched w Hmatched; cbv zeta.
  - cbn. split; [constructor|]. now intros files [= <-].
  - cbn [gather_filesToArchive]. destruct (instanceof_TFile child) eqn:Hchild;
      [|now apply IH].
    rewrite run_bind.
    pose proof (AllCalls_run _ _ H
                  (evaluateAutoArchiveRule_calls RegExp settings child rule) w) as Hread.
    apply condition_call_sweep_move in Hread.
    set (r := run H (evaluateAutoArchiveRule RegExp settings child rule) w) in *.
    split.
    + apply Forall_calls_and_then; [exact Hread|]. intros b _.
      apply IH. destruct b; [|exact Hmatched].
      apply Forall_app. split; [exact Hmatched | now constructor].
    + intros files. unfold and_then.
      destruct (outcome r) as [b| |]; cbn [outcome]; try discriminate.
      apply IH. destruct b; [|exact Hmatched].
      apply Forall_app. split; [exact Hmatched | now constructor].
Qed.

Lemma sweep_rules_sweep_moves rules H : forall total w,
  Forall (sweep_move settings) (calls (run H (sweep_rules RegExp settings rules total) w)).
Proof.
  induction rules as [|rule rules IH]; intros total w; [constructor|].
  cbn [sweep_rules run].
  destruct (answer H (getFolderByPath (normalizePath (folderPath rule))) w)
    as [[folder|] w1]; cbn [after_call calls].
  - constructor; [discriminate|]. rewrite run_bind.
    destruct (gather_filesToArchive_files rule H (children folder) [] w1 (Forall_nil _))
      as [Hcalls Hfiles].
    apply Forall_calls_and_then; [exact Hcalls|]. intros files Hresolved.
    rewrite run_bind. apply Forall_calls_and_then.
    + apply AllCalls_run, archive_gathered_sweep_moves. now apply Hfiles.
    + intros total' _. apply IH.
  - constructor; [discriminate | apply IH].
Qed.

(** X12: whatever the host replies, every move the sweep asks for is the
    move of a file, never of a folder, that does not count as archived, to
    [archive_destinationFilePath] of that file. *)
Theorem sweep_moves_unarchived_files_only (H : Host) (w : World H) :
  Forall (sweep_move settings)
    (calls (run H (processAutoArchiveRules RegExp settings) w)).
Proof.
  unfold processAutoArchiveRules.
  destruct (List.length (filter enabled (autoArchiveRules settings)) =? 0)%nat;
    [constructor|].
  rewrite run_bind. apply Forall_calls_and_then; [apply sweep_rules_sweep_moves|].
  intros total _. destruct (0 <? total)%nat; [|constructor].
  cbn. destruct (answer H (console_log _) _) as [[] w1]. cbn.
  constructor; [discriminate | constructor].
Qed.

Lemma evaluateAutoArchiveRule_without_conditions file rule :
  conditions rule = [] ->
  evaluateAutoArchiveRule RegExp settings file rule = Ret false.
Proof.
  intros Hc. unfold evaluateAutoArchiveRule. rewrite Hc.
  now destruct (isFileArchived settings file).
Qed.

Lemma gather_without_conditions rule :
  conditions rule = [] ->
  forall cs matched,
    gather_filesToArchive RegExp settings rule cs matched = Ret matched.
Proof.
  intros Hc. induction cs as [|child cs IH]; intros matched; [reflexivity|].
  cbn [gather_filesToArchive]. destruct (instanceof_TFile child); [|apply IH].
  rewrite (evaluateAutoArchiveRule_without_conditions child rule Hc). cbn. apply IH.
Qed.

Lemma sweep_rules_without_conditions rules H : forall total w,
  Forall (fun rule => conditions rule = []) rules ->
  let r := run H (sweep_rules RegExp settings rules total) w in
  outcome r = Resolved total /\ calls r = map folder_lookup rules.
Proof.
  induction rules as [|rule rules IH]; intros total w Hrules; [now split|].
  inversion Hrules as [|? ? Hrule Hrest]; subst. cbv zeta.
  cbn [sweep_rules run map]. fold (folder_lookup rule).
  destruct (answer H (folder_lookup rule) w) as [[folder|] w1]; cbn [after_call outcome calls].
  - rewrite (gather_without_conditions rule Hrule). cbn [bind archive_gathered].
    destruct (IH total w1 Hrest) as [-> ->]. now split.
  - destruct (IH total w1 Hrest) as [-> ->]. now split.
Qed.

(** X13: when every enabled rule is without conditions (as a rule just
    added is), the sweep resolves after looking up the folder of each
    enabled rule, in order, and doing nothing else: no file is examined,
    nothing is moved, nothing is logged.  With no enabled rule it makes no
    call at all. *)
Theorem sweep_without_conditions (H : Host) (w : World H) :
  (forall rule, In rule (autoArchiveRules settings) ->
     enabled rule = true -> conditions rule = []) ->
  let r := run H (processAutoArchiveRules RegExp settings) w in
  outcome r = Resolved tt /\
  calls r = map folder_lookup (filter enabled (autoArchiveRules settings)).
Proof.
  intros Hrules. cbv zeta. unfold processAutoArchiveRules.
  assert (Hall : Forall (fun rule => conditions rule = [])
                   (filter enabled (autoArchiveRules settings))).
  { apply Forall_forall. intros rule Hin. apply filter_In in Hin as [Hin Hon]. auto. }
  destruct (filter enabled (autoArchiveRules settings)) as [|rule rules] eqn:E;
    [now split|].
  cbn [List.length Nat.eqb]. rewrite run_bind. unfold and_then.
  destruct (sweep_rules_without_conditions (rule :: rules) H 0 w Hall) as [-> ->].
  cbn. rewrite app_nil_r. now split.
Qed.

End Sweep.

Lemma sweep_without_conditions_witness :
  let settings :=
    {| archiveFolder := "Archive";
       autoArchiveRules :=
         [new_rule "a";
          {| id := "b"; enabled := false; folderPath := "Inbox";
             conditions := [{| type := fileAge; value := "7" |}];
             logicOperator := AND |};
          new_rule "c"];
       autoArchiveFrequency := 60 |} in
  let r := run SampleHost.host (processAutoArchiveRules SampleHost.RegExp settings)
             SampleHost.inbox_vault in
  outcome r = Resolved tt /\
  calls r = [getFolderByPath "/"; getFolderByPath "/"].
Proof.
  intros settings.
  apply (sweep_without_conditions SampleHost.RegExp settings SampleHost.host
           SampleHost.inbox_vault).
  intros rule [<- | [<- | [<- | []]]]; [reflexivity | discriminate | reflexivity].
Defined.

(* ================================================================== *)
(** ** More on archiving *)

Section Archiving.

Variable settings : SimpleArchiverSettings.

(** X14: [moveFileToArchive] asks the host to create a folder exactly when
    its lookup of the destination folder found none, and then it is that
    folder it asks for: an existing folder is never created again. *)
Theorem moveFileToArchive_creates_missing_folder_only
    (file : TAbstractFile) (H : Host) (w : World H) (p : string) :
  let destinationPath := archive_destinationPath settings file in
  In (createFolder p) (calls (run H (moveFileToArchive settings file) w)) <->
  p = destinationPath /\ fst (answer H (getFolderByPath destinationPath) w) = None.
Proof.
  cbv zeta. unfold moveFileToArchive.
  cbn [fst snd after_call outcome calls world run bind try_catch unawaited await].
  repeat next_reply H; cbn [In]; intuition congruence.
Qed.

(** X15: whenever [archiveFile] resolves, its result is one of four: already
    archived, cancelled, archived, or unable to archive with the error of
    the host's move; and it reports success only when its last call to the
    host was the one move it asked for, of the file to its archive
    destination. *)
Theorem archiveFile_results
    (file : TAbstractFile) (H : Host) (w : World H) (result : ArchiveResult) :
  let r := run H (archiveFile settings file) w in
  let move := renameFile file (archive_destinationFilePath settings file) in
  outcome r = Resolved result ->
  ArchiveOutcome settings file result /\
  (success result = true ->
     last (calls r) Date_now = move /\
     rename_requests (calls r)
       = [(path file, archive_destinationFilePath settings file)]).
Proof.
  cbv zeta. unfold archiveFile, moveFileToArchive.
  destruct (isFileArchived settings file) eqn:Harch;
    cbn [fst snd after_call outcome calls world run bind try_catch unawaited await].
  - intros [= <-]. split; [now constructor | discriminate].
  - repeat next_reply H; intros E; try discriminate E; injection E as <-;
      (split; [now constructor | cbn; try discriminate; intros _; split; reflexivity]).
Qed.

(** X16: [archiveFile] trashes nothing but the occupant of the destination,
    and only after the user chose Replace in the prompt. *)
Theorem archiveFile_trashes_only_the_occupant
    (file item : TAbstractFile) (H : Host) (w : World H) :
  let lookup := getAbstractFileByPath (conflict_destinationFilePath settings file) in
  In (trashFile item) (calls (run H (archiveFile settings file) w)) ->
  isFileArchived settings file = false /\
  fst (answer H lookup w) = Some item /\
  fst (answer H (archive_conflict_prompt file) (snd (answer H lookup w))) = ClickYes.
Proof.
  cbv zeta. unfold archiveFile, moveFileToArchive, archive_conflict_prompt.
  destruct (isFileArchived settings file) eqn:Harch;
    cbn [fst snd after_call outcome calls world run bind try_catch unawaited await];
    [intros []|].
  repeat next_reply H; cbn [In]; intuition congruence.
Qed.

(** X17: the promise of [archiveFile] rejects only when the destination was
    free, the destination folder was missing and the host refused to create
    it; no move was asked for then. *)
Theorem archiveFile_rejects_only_on_createFolder
    (file : TAbstractFile) (H : Host) (w : World H) (error : string) :
  let lookup := getAbstractFileByPath (conflict_destinationFilePath settings file) in
  let r := run H (archiveFile settings file) w in
  outcome r = Threw error ->
  isFileArchived settings file = false /\
  fst (answer H lookup w) = None /\
  calls r = [lookup;
             getFolderByPath (archive_destinationPath settings file);
             createFolder (archive_destinationPath settings file)].
Proof.
  cbv zeta. unfold archiveFile, moveFileToArchive.
  destruct (isFileArchived settings file) eqn:Harch;
    cbn [fst snd after_call outcome calls world run bind try_catch unawaited await];
    [discriminate|].
  repeat next_reply H; intros E; try discriminate E; repeat split.
Qed.

(** X18: the promise of [archiveFile] stays pending only when the
    destination was occupied and the user either closed the prompt without a
    decision or chose Replace and the host then refused to trash the
    occupant or to create the destination folder; no move was asked for
    then. *)
Theorem archiveFile_pending_only_after_prompt
    (file : TAbstractFile) (H : Host) (w : World H) :
  let lookup := getAbstractFileByPath (conflict_destinationFilePath settings file) in
  let decision :=
    fst (answer H (archive_conflict_prompt file) (snd (answer H lookup w))) in
  let r := run H (archiveFile settings file) w in
  outcome r = NeverSettles ->
  fst (answer H lookup w) <> None /\
  (decision = Dismiss \/ decision = ClickYes) /\
  rename_requests (calls r) = [].
Proof.
  cbv zeta. unfold archiveFile, moveFileToArchive, archive_conflict_prompt.
  destruct (isFileArchived settings file) eqn:Harch;
    cbn [fst snd after_call outcome calls world run bind try_catch unawaited await];
    [discriminate|].
  repeat next_reply H; intros E; try discriminate E;
    (split; [discriminate | split; [tauto | reflexivity]]).
Qed.

End Archiving.

Lemma archiveFile_results_witness :
  let r := run SampleHost.host (archiveFile DEFAULT_SETTINGS SampleHost.a_md)
             (SampleHost.vault ClickYes) in
  last (calls r) Date_now = renameFile SampleHost.a_md "Archive/a.md" /\
  rename_requests (calls r) = [("a.md", "Archive/a.md")].
Proof.
  exact (proj2 (archiveFile_results DEFAULT_SETTINGS SampleHost.a_md SampleHost.host
                  (SampleHost.vault ClickYes) _ eq_refl) eq_refl).
Defined.

Lemma archiveFile_trashes_only_the_occupant_witness :
  fst (answer SampleHost.host (getAbstractFileByPath "Archive/a.md")
         (SampleHost.vault ClickYes)) = Some SampleHost.archived_a_md.
Proof.
  refine (proj1 (proj2 (archiveFile_trashes_only_the_occupant DEFAULT_SETTINGS
                          SampleHost.a_md SampleHost.archived_a_md SampleHost.host
                          (SampleHost.vault ClickYes) _))).
  cbn. tauto.
Defined.

Lemma archiveFile_rejects_only_on_createFolder_witness :
  calls (run SampleHost.host (archiveFile DEFAULT_SETTINGS SampleHost.a_md)
           OtherHosts.blocked_vault)
  = [getAbstractFileByPath "Archive/a.md"; getFolderByPath "Archive";
     createFolder "Archive"].
Proof.
  exact (proj2 (proj2 (archiveFile_rejects_only_on_createFolder DEFAULT_SETTINGS
                         SampleHost.a_md SampleHost.host OtherHosts.blocked_vault
                         "Error: Folder already exists." eq_refl))).
Defined.

Lemma archiveFile_pending_only_after_prompt_witness :
  rename_requests
    (calls (run OtherHosts.keeping_host (archiveFile DEFAULT_SETTINGS SampleHost.a_md)
              (SampleHost.vault ClickYes))) = [].
Proof.
  exact (proj2 (proj2 (archiveFile_pending_only_after_prompt DEFAULT_SETTINGS
                         SampleHost.a_md OtherHosts.keeping_host
                         (SampleHost.vault ClickYes) eq_refl))).
Defined.

(* ================================================================== *)
(** ** Batches *)

Lemma item_lookups_app (cs ds : list HostCall) :
  item_lookups (cs ++ ds) = (item_lookups cs ++ item_lookups ds)%list.
Proof.
  induction cs as [|c cs IH]; [reflexivity|]. cbn.
  destruct c; cbn; now rewrite IH.
Qed.

Section Batch.

Variable settings : SimpleArchiverSettings.

(** On an obliging host [archiveFile] resolves; it looks up the destination
    of an item that is not archived and nothing for one that is, which it
    does not count as a success. *)
Lemma archiveFile_obliging H file w :
  obliging H ->
  exists result,
    outcome (run H (archiveFile settings file) w) = Resolved result /\
    item_lookups (calls (run H (archiveFile settings file) w))
      = (if isFileArchived settings file then []
         else [conflict_destinationFilePath settings file]) /\
    (isFileArchived settings file = true -> success result = false).
Proof.
  intros (Hcreate & Htrash & Hprompt). unfold archiveFile, moveFileToArchive.
  destruct (isFileArchived settings file) eqn:Harch;
    cbn [fst snd after_call outcome calls world run bind try_catch unawaited await].
  - eexists. repeat split.
  - repeat obliging_reply H Hcreate Htrash Hprompt;
      (eexists; split; [reflexivity | split; [reflexivity | discriminate]]).
Qed.

Lemma archive_gathered_obliging H files :
  obliging H ->
  forall total w,
  exists n,
    outcome (run H (archive_gathered settings files total) w) = Resolved n /\
    total <= n <= total +
      List.length (filter (fun file => negb (isFileArchived settings file)) files) /\
    item_lookups (calls (run H (archive_gathered settings files total) w))
      = map (conflict_destinationFilePath settings)
          (filter (fun file => negb (isFileArchived settings file)) files).
Proof.
  intros Hobliging. induction files as [|file files IH]; intros total w.
  - exists total. cbn. repeat split; lia.
  - destruct (archiveFile_obliging H file w Hobliging) as (result & Hres & Hlook & Hfail).
    cbn [archive_gathered]. rewrite run_bind. unfold and_then. rewrite Hres.
    cbn [outcome calls].
    destruct (IH (if success result then S total else total)
                 (world (run H (archiveFile settings file) w)))
      as (n & Hn & Hbound & Hlookups).
    exists n. split; [exact Hn|]. rewrite item_lookups_app, Hlook, Hlookups.
    cbn [filter]. destruct (isFileArchived settings file); cbn [negb].
    + rewrite (Hfail eq_refl) in Hbound. split; [lia | reflexivity].
    + split; [|reflexivity]. cbn [List.length]. destruct (success result); lia.
Qed.

(** X19: on a host that always creates folders, always trashes and always
    gets an answer to its prompts, [archiveAllFiles] resolves for every list
    of items: the failure of one item does not keep it from the next.  Every
    item that does not count as archived is attempted, in order, and the
    notice counts at most those. *)
Theorem archiveAllFiles_attempts_every_item
    (H : Host) (files : list TAbstractFile) (w : World H) :
  obliging H ->
  let r := run H (archiveAllFiles settings files) w in
  let attempted := filter (fun file => negb (isFileArchived settings file)) files in
  exists archived,
    outcome r = Resolved (string_of_nat archived ++ " files archived") /\
    archived <= List.length attempted /\
    item_lookups (calls r) = map (conflict_destinationFilePath settings) attempted.
Proof.
  intros Hobliging. cbv zeta. unfold archiveAllFiles. rewrite run_bind. unfold and_then.
  destruct (archive_gathered_obliging H files Hobliging 0 w) as (n & Hn & Hbound & Hlook).
  rewrite Hn. cbn [outcome calls run]. exists n.
  rewrite app_nil_r. repeat split; [lia | exact Hlook].
Qed.

(** X20: [archiveAllFiles] has no handler for a rejection: when archiving
    the first item rejects, the batch rejects with the same error, the other
    items are not touched and no notice is shown. *)
Theorem archiveAllFiles_stops_at_rejection
    (H : Host) (file : TAbstractFile) (rest : list TAbstractFile)
    (w : World H) (error : string) :
  outcome (run H (archiveFile settings file) w) = Threw error ->
  let r := run H (archiveAllFiles settings (file :: rest)) w in
  outcome r = Threw error /\
  calls r = calls (run H (archiveFile settings file) w) /\
  world r = world (run H (archiveFile settings file) w).
Proof.
  intros Hthrew. cbv zeta. unfold archiveAllFiles. cbn [archive_gathered].
  rewrite !run_bind. unfold and_then. rewrite Hthrew. cbn. repeat split.
Qed.

(** X21: when the item counts as archived, its original place is occupied
    and the user answers the prompt with its second button,
    [unarchiveFile] resolves with the failed result
    [Unarchive operation cancelled], having asked the host for the occupant
    and for the decision and for nothing else. *)
Theorem unarchiveFile_conflict_cancelled
    (file existing : TAbstractFile) (H : Host) (w : World H) :
  isFileArchived settings file = true ->
  let lookup := getAbstractFileByPath (originalPath settings file) in
  fst (answer H lookup w) = Some existing ->
  fst (answer H (unarchive_conflict_prompt file) (snd (answer H lookup w))) = ClickNo ->
  let r := run H (unarchiveFile settings file) w in
  outcome r =
    Resolved {| success := false; message := "Unarchive operation cancelled" |} /\
  calls r = [lookup; unarchive_conflict_prompt file] /\
  existsb mutates (calls r) = false.
Proof.
  intros Harch lookup Hexisting Hcancel. unfold unarchiveFile. rewrite Harch.
  cbn. fold lookup. unfold unarchive_conflict_prompt in *.
  destruct (answer H lookup w) as [existingItem w1]. cbn in Hexisting, Hcancel |- *.
  subst existingItem. cbn.
  match goal with
  | |- context [answer H ?c w1] => destruct (answer H c w1) as [decision w2]
  end.
  cbn in Hcancel |- *. subst decision. cbn. repeat split.
Qed.

End Batch.

Lemma obliging_host_obliging : obliging OtherHosts.obliging_host.
Proof.
  repeat split.
  intros t m y n w. cbn. now destruct (SampleHost.user w).
Qed.

Lemma archiveAllFiles_attempts_every_item_witness :
  exists archived,
    outcome (run OtherHosts.obliging_host
               (archiveAllFiles DEFAULT_SETTINGS
                  [SampleHost.a_md; SampleHost.archived_todo; SampleHost.todo])
               (SampleHost.vault ClickNo))
      = Resolved (string_of_nat archived ++ " files archived") /\
    archived <= 2 /\
    item_lookups
      (calls (run OtherHosts.obliging_host
                (archiveAllFiles DEFAULT_SETTINGS
                   [SampleHost.a_md; SampleHost.archived_todo; SampleHost.todo])
                (SampleHost.vault ClickNo)))
      = ["Archive/a.md"; "Archive/Notes/todo.md"].
Proof.
  exact (archiveAllFiles_attempts_every_item DEFAULT_SETTINGS OtherHosts.obliging_host
           [SampleHost.a_md; SampleHost.archived_todo; SampleHost.todo]
           (SampleHost.vault ClickNo) obliging_host_obliging).
Defined.

Lemma archiveAllFiles_stops_at_rejection_witness :
  let r := run SampleHost.host
             (archiveAllFiles DEFAULT_SETTINGS [SampleHost.a_md; SampleHost.todo])
             OtherHosts.blocked_vault in
  outcome r = Threw "Error: Folder already exists." /\
  item_lookups (calls r) = ["Archive/a.md"].
Proof.
  destruct (archiveAllFiles_stops_at_rejection DEFAULT_SETTINGS SampleHost.host
              SampleHost.a_md [SampleHost.todo] OtherHosts.blocked_vault
              "Error: Folder already exists." eq_refl) as (W1 & W2 & _).
  split; [exact W1|]. cbv zeta. rewrite W2. reflexivity.
Defined.

Lemma unarchiveFile_conflict_cancelled_witness :
  let v := SampleHost.with_items (SampleHost.vault ClickNo)
             [SampleHost.archived_a_md; SampleHost.a_md] in
  outcome (run SampleHost.host (unarchiveFile DEFAULT_SETTINGS SampleHost.archived_a_md) v)
  = Resolved {| success := false; message := "Unarchive operation cancelled" |}.
Proof.
  intros v.
  exact (proj1 (unarchiveFile_conflict_cancelled DEFAULT_SETTINGS
                  SampleHost.archived_a_md SampleHost.a_md SampleHost.host v
                  eq_refl eq_refl eq_refl)).
Defined.

(* ================================================================== *)
(** ** More on unarchiving *)

Lemma lastIndexOf_slash_segment (n : string) :
  all_seg_chars n = true -> Js.lastIndexOf_slash n = None.
Proof.
  induction n as [|c n IH]; [reflexivity|]. cbn. intros Hn.
  apply andb_true_iff in Hn as [Hc Hn]. rewrite (IH Hn).
  now rewrite (seg_char_not_slash _ Hc).
Qed.

Lemma lastIndexOf_slash_join (d n : string) :
  all_seg_chars n = true ->
  Js.lastIndexOf_slash (d ++ "/" ++ n) = Some (String.length d).
Proof.
  intros Hn. induction d as [|c d IH]; cbn.
  - now rewrite (lastIndexOf_slash_segment n Hn).
  - cbn in IH. now rewrite IH.
Qed.

Lemma substring_to_append (d t : string) :
  Js.substring_to (String.length d) (d ++ t) = d.
Proof.
  induction d as [|c d IH]; cbn; [now destruct t | now rewrite IH].
Qed.

(** The parent part of the path of a well-placed item: empty under the vault
    root, the parent's path otherwise. *)
Lemma parent_part_of_path (f : TAbstractFile) :
  well_placed f ->
  (parent f = Some "/" /\ Js.substring_to_lastIndexOf_slash (path f) = "") \/
  (exists d, parent f = Some d /\ is_rel_path d = true /\
             Js.substring_to_lastIndexOf_slash (path f) = d).
Proof.
  intros (Hn & d & Hd & [(-> & Hp) | (Hrel & Hp)]); rewrite Hp;
    unfold is_segment in Hn; apply andb_true_iff in Hn as [_ Hn];
    unfold Js.substring_to_lastIndexOf_slash.
  - left. split; [exact Hd|]. now rewrite (lastIndexOf_slash_segment _ Hn).
  - right. exists d. split; [exact Hd|]. split; [exact Hrel|].
    rewrite (lastIndexOf_slash_join d _ Hn). apply substring_to_append.
Qed.

Section Unarchiving.

Variable settings : SimpleArchiverSettings.

(** X22: unarchiving the archived copy of a well-placed item looks up, and
    if need be creates, no folder but the item's original parent folder; for
    an item that sat directly under the vault root it looks up and creates
    no folder at all. *)
Theorem unarchiveFile_restores_parent_folder
    (f g : TAbstractFile) (H : Host) (w : World H) :
  well_placed f ->
  path g = archiveFolder settings ++ "/" ++ path f ->
  Forall
    (fun c => forall p, c = getFolderByPath p \/ c = createFolder p ->
                        parent f = Some p /\ p <> "/")
    (calls (run H (unarchiveFile settings g) w)).
Proof.
  intros Hf Hg. apply AllCalls_run.
  assert (Ho : originalPath settings g = path f).
  { unfold originalPath. rewrite Hg. apply substring_from_root_slash. }
  assert (Hmove :
    AllCalls
      (fun c => forall p, c = getFolderByPath p \/ c = createFolder p ->
                          parent f = Some p /\ p <> "/")
      (moveFileOutOfArchive settings g)).
  { unfold moveFileOutOfArchive. rewrite Ho.
    apply AllCalls_bind.
    - destruct (parent_part_of_path f Hf) as [(_ & ->) | (d & Hd & Hrel & ->)];
        [constructor|].
      assert (Hroot : d <> "/") by (intros ->; discriminate).
      destruct (String.eqb d ""); [constructor|].
      apply AllCalls_Call; [intros p [[= <-] | E]; [now split | discriminate]|].
      intros [folder|]; [constructor|].
      apply AllCalls_await. rewrite (normalizePath_rel_path d Hrel).
      intros p [E | [= <-]]; [discriminate | now split].
    - intros _. apply AllCalls_try_catch; [|constructor].
      apply AllCalls_bind; [|constructor].
      apply AllCalls_await. intros p [E | E]; discriminate. }
  unfold unarchiveFile. destruct (negb (isFileArchived settings g)); [constructor|].
  apply AllCalls_Call; [intros p [E | E]; discriminate|].
  intros [existing|]; [|exact Hmove].
  apply AllCalls_Call; [intros p [E | E]; discriminate|].
  intros [| |]; [|constructor|constructor].
  apply AllCalls_unawaited. apply AllCalls_bind; [|intros _; exact Hmove].
  apply AllCalls_await. intros p [E | E]; discriminate.
Qed.

End Unarchiving.

Lemma unarchiveFile_restores_parent_folder_witness :
  let v := SampleHost.with_items (SampleHost.vault ClickNo) [SampleHost.archived_todo] in
  Forall
    (fun c => forall p, c = getFolderByPath p \/ c = createFolder p ->
                        Some "Notes" = Some p /\ p <> "/")
    (calls (run SampleHost.host
              (unarchiveFile DEFAULT_SETTINGS SampleHost.archived_todo) v)).
Proof.
  intros v.
  exact (unarchiveFile_restores_parent_folder DEFAULT_SETTINGS SampleHost.todo
           SampleHost.archived_todo SampleHost.host v todo_well_placed eq_refl).
Defined.

(** On the sample host the folder [Notes] is indeed looked up and
    created. *)
Example unarchive_recreates_parent :
  let v := SampleHost.with_items (SampleHost.vault ClickNo) [SampleHost.archived_todo] in
  calls (run SampleHost.host (unarchiveFile DEFAULT_SETTINGS SampleHost.archived_todo) v)
  = [getAbstractFileByPath "Notes/todo.md"; getFolderByPath "Notes";
     createFolder "Notes"; renameFile SampleHost.archived_todo "Notes/todo.md"].
Proof. reflexivity. Qed.

(* ================================================================== *)
(** ** What the menu entries report *)

Section Notices.

Variable settings : SimpleArchiverSettings.

(** A successful result of [archiveFile] carries the success message. *)
Lemma archiveFile_success_message file H w result :
  outcome (run H (archiveFile settings file) w) = Resolved result ->
  success result = true ->
  message result = name file ++ " archived successfully".
Proof.
  unfold archiveFile, moveFileToArchive.
  destruct (isFileArchived settings file);
    cbn [fst snd after_call outcome calls world run bind try_catch unawaited await].
  - now intros [= <-].
  - repeat next_reply H; intros E; try discriminate E; injection E as <-;
      cbn; now try discriminate.
Qed.

(** X23: the entry "Move to archive" of the context menu never shows a
    failure: if its click handler shows a notice at all, the notice says
    that the item was archived successfully.  The command of the same name
    shows the message of the result whatever it is. *)
Theorem file_menu_archive_notice
    (file : TAbstractFile) (H : Host) (w : World H) (notice : string) :
  isFileArchived settings file = false ->
  exists item,
    on_file_menu settings [] file = [item] /\
    title item = "Move to archive" /\
    (outcome (run H (onClick item) w) = Resolved (Some notice) ->
     notice = name file ++ " archived successfully") /\
    snd (move_to_archive_check settings false (Some file))
      = Some (result <- archiveFile settings file ;; Ret (message result)).
Proof.
  intros Harch. unfold on_file_menu, file_menu_archive, file_menu_unarchive,
    move_to_archive_check. rewrite Harch. cbn [negb app].
  eexists. split; [reflexivity|]. split; [reflexivity|]. split; [|reflexivity].
  cbn [onClick]. rewrite run_bind. unfold and_then.
  destruct (outcome (run H (archiveFile settings file) w)) as [result| |] eqn:E;
    cbn; try discriminate.
  destruct (success result) eqn:Hs; [|discriminate].
  intros [= <-]. now apply (archiveFile_success_message file H w).
Qed.

End Notices.

Lemma file_menu_archive_notice_witness :
  exists item,
    on_file_menu DEFAULT_SETTINGS [] SampleHost.todo = [item] /\
    title item = "Move to archive" /\
    outcome (run SampleHost.host (onClick item) (SampleHost.vault ClickNo))
      = Resolved (Some "todo.md archived successfully").
Proof.
  destruct (file_menu_archive_notice DEFAULT_SETTINGS SampleHost.todo SampleHost.host
              (SampleHost.vault ClickNo) "todo.md archived successfully" eq_refl)
    as (item & Hmenu & Htitle & _ & _).
  exists item. split; [exact Hmenu|]. split; [exact Htitle|].
  cbn in Hmenu. injection Hmenu as <-. reflexivity.
Defined.
